(** * generate_definitions.py: a shallow embedding and its properties

    The script reads a table of key phrases, groups its rows by
    (legislation_term, legislation_id), builds one prompt per group, asks a
    remote model for a definition and writes the results to CSV files.

    Modelling choices, all taken from [src/generate_definitions.py]:
    - a Python [str] is a [string]; a character stands for a code point
      below 256;
    - a table cell is missing ([NaN]) or holds a value, a text or an
      integer, as [pd.read_csv] types the columns of the file: a column
      of digits only is read as integers, which sort by value and are
      not texts for [str.strip] and [str.join]; float and bool columns
      are not modelled;
    - the outside world (files, the remote service, [str.format]) is a
      record of oracles, [World];
    - effects are threaded through a state-and-exception monad [M]: the
      state [Sys] survives a raised exception, as files on disk do;
    - [logger] calls only write to the log and are left out;
    - writing a CSV file is taken to succeed (a full disk or a path that
      cannot be written is outside the model);
    - the start-up code of the module (logging set-up, the check of the
      API key, the client) runs before [main] and is not part of the
      model: [main] is what a run that got past it does. *)

From Stdlib Require Import List String Ascii Arith ZArith Lia Bool Permutation.
From Stdlib Require Import Sorting.Sorted Structures.OrderedTypeEx Lists.Finite.
From Stdlib Require Import Numbers.DecimalString Numbers.DecimalNat.
Import ListNotations.
Open Scope string_scope.

Set Implicit Arguments.

(** ** Python strings *)

Module Py.

(** [str.isspace] on one character, for code points below 256:
    U+0009..U+000D, U+001C..U+0020, U+0085 and U+00A0. *)
Definition isspace (c : ascii) : bool :=
  let n := nat_of_ascii c in
  (((9 <=? n) && (n <=? 13)) || ((28 <=? n) && (n <=? 32))
   || (n =? 133) || (n =? 160))%nat.

Fixpoint lstrip (s : string) : string :=
  match s with
  | EmptyString => EmptyString
  | String c s' => if isspace c then lstrip s' else s
  end.

Fixpoint rstrip (s : string) : string :=
  match s with
  | EmptyString => EmptyString
  | String c s' =>
      match rstrip s' with
      | EmptyString => if isspace c then EmptyString else String c EmptyString
      | t => String c t
      end
  end.

(** [s.strip()] *)
Definition strip (s : string) : string := rstrip (lstrip s).

(** Truth value of a [str]: only the empty string is falsy. *)
Definition truthy (s : string) : bool :=
  match s with EmptyString => false | String _ _ => true end.

(** [sep.join(l)] *)
Definition join (sep : string) (l : list string) : string :=
  String.concat sep l.

(** [str(n)] for a non-negative [int] *)
Definition str_of_nat (n : nat) : string :=
  NilEmpty.string_of_uint (Nat.to_uint n).

(** [str(z)] for an [int] *)
Definition str_of_int (z : Z) : string :=
  NilEmpty.string_of_int (Z.to_int z).

(** The line feed of the escape [\n]. *)
Definition nl : string := String (ascii_of_nat 10) EmptyString.

(** A string all of whose characters are white space. *)
Fixpoint blank (s : string) : bool :=
  match s with
  | EmptyString => true
  | String c s' => isspace c && blank s'
  end.

End Py.

(** ** Exceptions and the effect monad *)

(** The exceptions the script can meet. All of them are subclasses of
    Python's [Exception]; signals that are not (KeyboardInterrupt,
    SystemExit) are outside the model. *)
Inductive exn : Type :=
| FileNotFoundError
| UnicodeDecodeError
| KeyError (key : string)
| TypeError
| AttributeError
| Exception (cls msg : string).

Definition is_UnicodeDecodeError (e : exn) : bool :=
  match e with UnicodeDecodeError => true | _ => false end.

Definition is_FileNotFoundError (e : exn) : bool :=
  match e with FileNotFoundError => true | _ => false end.

(** [except Exception] catches every exception of the model. *)
Definition is_Exception (e : exn) : bool := true.

Inductive Res (A : Type) : Type :=
| Ok (a : A)
| Raise (e : exn).

Arguments Ok {A} a.
Arguments Raise {A} e.

(** ** Tables *)

(** A value of the table: a [str], or an [int] of a column that
    [pd.read_csv] typed as integers. *)
Inductive Value : Type :=
| Str (s : string)
| Int (z : Z).

Inductive Cell : Type :=
| NaN
| Val (v : Value).

Definition notna (c : Cell) : bool :=
  match c with NaN => false | Val _ => true end.

(** [str(v)] *)
Definition str (v : Value) : string :=
  match v with Str s => s | Int z => Py.str_of_int z end.

(** What an f-string prints for a cell: [nan] for a missing value. *)
Definition fmt (c : Cell) : string :=
  match c with NaN => "nan" | Val v => str v end.

(** One record of the input table. The script indexes the columns
    [legislation_term], [legislation_id], [section_text] and [case_term]
    directly, so they exist; it reads [url], [para_id] and [paragraphs]
    with [row.get(column, default)], so each of those is [None] when the
    frame has no such column. A row handed out by [iterrows] holds the
    values as they are in the frame, which is so as soon as one column of
    the frame holds text. *)
Record Row : Type := {
  legislation_term : Cell;
  legislation_id : Cell;
  section_text : Cell;
  url : option Cell;
  para_id : option Cell;
  paragraphs : option Cell;
  case_term : Cell
}.

(** [row.get(column, default)] *)
Definition get (column : option Cell) (default : Cell) : Cell :=
  match column with Some c => c | None => default end.

(** A frame: the rows with their index labels. *)
Definition DataFrame : Type := list (nat * Row).

(** The default index of a frame that was just read: 0, 1, 2, ... *)
Definition RangeIndex (rows : list Row) : DataFrame :=
  combine (seq 0 (List.length rows)) rows.

(** [df[column]] *)
Definition column (f : Row -> Cell) (df : DataFrame) : list Cell :=
  map (fun ir => f (snd ir)) df.

(** [Series.dropna()] *)
Fixpoint dropna (col : list Cell) : list Value :=
  match col with
  | [] => []
  | NaN :: rest => dropna rest
  | Val v :: rest => v :: dropna rest
  end.

(** [a == b] on values *)
Definition value_eqb (a b : Value) : bool :=
  match a, b with
  | Str x, Str y => String.eqb x y
  | Int x, Int y => Z.eqb x y
  | _, _ => false
  end.

(** [Series.unique()]: the values in order of appearance, each once. *)
Fixpoint unique_from (seen : list Value) (values : list Value) : list Value :=
  match values with
  | [] => []
  | v :: rest =>
      if existsb (value_eqb v) seen then unique_from seen rest
      else v :: unique_from (v :: seen) rest
  end.

Definition unique (values : list Value) : list Value :=
  unique_from [] values.

(** *** groupby *)

Definition Key : Type := (Value * Value)%type.

(** The group key of a row; a row with a missing key has none
    ([groupby] runs with its default [dropna=True]). *)
Definition row_key (r : Row) : option Key :=
  match legislation_term r, legislation_id r with
  | Val t, Val i => Some (t, i)
  | _, _ => None
  end.

(** How the values of a key column are sorted: integers by value, texts
    by code point; in a column that mixes both, integers come first. *)
Definition value_compare (a b : Value) : comparison :=
  match a, b with
  | Int x, Int y => Z.compare x y
  | Str x, Str y => String.compare x y
  | Int _, Str _ => Lt
  | Str _, Int _ => Gt
  end.

(** The groups are sorted on the first key column, then on the second. *)
Definition key_compare (a b : Key) : comparison :=
  match value_compare (fst a) (fst b) with
  | Eq => value_compare (snd a) (snd b)
  | c => c
  end.

Definition key_lt (a b : Key) : Prop := key_compare a b = Lt.

Definition key_eqb (a b : Key) : bool :=
  value_eqb (fst a) (fst b) && value_eqb (snd a) (snd b).

Definition has_key (k : Key) (r : Row) : bool :=
  match row_key r with
  | Some k' => key_eqb k' k
  | None => false
  end.

Fixpoint insert_key (k : Key) (ks : list Key) : list Key :=
  match ks with
  | [] => [k]
  | k' :: rest =>
      match key_compare k k' with
      | Lt => k :: ks
      | Eq => ks
      | Gt => k' :: insert_key k rest
      end
  end.

Fixpoint present_keys (df : DataFrame) : list Key :=
  match df with
  | [] => []
  | (_, r) :: rest =>
      match row_key r with
      | Some k => k :: present_keys rest
      | None => present_keys rest
      end
  end.

(** The keys of the groups, sorted ([sort=True] is the default). *)
Definition group_keys (df : DataFrame) : list Key :=
  fold_right insert_key [] (present_keys df).

(** [list(df.groupby(['legislation_term', 'legislation_id']))]: one pair
    of a key and the sub-frame of its rows, in sorted key order; the rows
    of a sub-frame keep their order and their index labels. *)
Definition groupby (df : DataFrame) : list (Key * DataFrame) :=
  map (fun k => (k, filter (fun ir => has_key k (snd ir)) df)) (group_keys df).

(** ** The world outside the script *)

Inductive Encoding : Type :=
| utf_8
| latin_1.

(** One segment of a response of the remote service. *)
Record ContentBlock : Type := {
  type : string;
  text : string
}.

Module Prompt.

(** The keyword arguments of [prompt_template.format]. *)
Record Fields : Type := {
  legislation_term : Value;
  legislation_id : Value;
  section_text : Value;
  case_law_paragraphs : string;
  case_terms : string
}.

End Prompt.

Module Result.

(** One entry of [results]: a row of the output table. *)
Record t : Type := {
  legislation_id : Value;
  legislation_term : Value;
  legislation_term_definition : string
}.

End Result.

Definition ResultRecord : Type := Result.t.

(** What the script cannot decide by itself:
    - [prompt_txt]: what opening and reading [prompt.txt] gives;
    - [read_csv enc]: the records [pd.read_csv] parses from the input file
      under encoding [enc], or the exception it raises;
    - [format template fields]: [template.format] applied to the keyword
      arguments [fields];
    - [messages_create n prompt]: the outcome of the call of
      [client.messages.create] on [prompt] made after [n] earlier calls. *)
Record World : Type := {
  prompt_txt : Res string;
  read_csv : Encoding -> Res (list Row);
  format : string -> Prompt.Fields -> Res string;
  messages_create : nat -> string -> Res (list ContentBlock)
}.

(** What the script changes: the number of calls made to the service, the
    encodings tried on the input file, the number of pauses taken and the
    CSV files written, oldest first. *)
Record Sys : Type := {
  api_calls : nat;
  csv_reads : list Encoding;
  naps : nat;
  csv_files : list (string * list ResultRecord)
}.

Definition boot : Sys :=
  {| api_calls := 0; csv_reads := []; naps := 0; csv_files := [] |}.

Definition M (A : Type) : Type := Sys -> Sys * Res A.

Definition ret {A} (a : A) : M A := fun s => (s, Ok a).

Definition raise {A} (e : exn) : M A := fun s => (s, Raise e).

Definition bind {A B} (m : M A) (k : A -> M B) : M B :=
  fun s =>
    match m s with
    | (s', Ok a) => k a s'
    | (s', Raise e) => (s', Raise e)
    end.

(** [try: m  except <class> as e: handler e] *)
Definition try_except {A} (m : M A) (catches : exn -> bool)
  (handler : exn -> M A) : M A :=
  fun s =>
    match m s with
    | (s', Ok a) => (s', Ok a)
    | (s', Raise e) => if catches e then handler e s' else (s', Raise e)
    end.

Definition lift {A} (r : Res A) : M A := fun s => (s, r).

Notation "x <- m ;; k" := (bind m (fun x => k))
  (at level 61, m at next level, right associativity).
Notation "m ;; k" := (bind m (fun _ => k))
  (at level 61, right associativity).

(** [time.sleep(0.5)] *)
Definition sleep : M unit :=
  fun s => ({| api_calls := api_calls s; csv_reads := csv_reads s;
               naps := S (naps s); csv_files := csv_files s |}, Ok tt).

(** [pd.DataFrame(results).to_csv(name, index=False, encoding='utf-8')] *)
Definition to_csv (name : string) (results : list ResultRecord) : M unit :=
  fun s => ({| api_calls := api_calls s; csv_reads := csv_reads s;
               naps := naps s;
               csv_files := csv_files s ++ [(name, results)] |}, Ok tt).

(** ** The script *)

Definition ERROR_PLACEHOLDER : string := "Error: Could not generate definition".

(** [Series.iloc[0]] *)
Definition iloc0 (values : list Value) : Res Value :=
  match values with
  | [] => Raise (Exception "IndexError" "single positional indexer is out-of-bounds")
  | v :: _ => Ok v
  end.

(** [Series.empty] *)
Definition empty (values : list Value) : bool :=
  match values with [] => true | _ :: _ => false end.

(** The text of one case-law block, line 61. *)
Definition case_law_block (url para_id paragraph : Cell) : string :=
  "Case Law: " ++ fmt url ++ " (Paragraph: " ++ fmt para_id ++ ")" ++ Py.nl
  ++ fmt paragraph ++ Py.nl.

(** [paragraph.strip()]: a [str] has the method, an [int] has not. *)
Definition strip_method (paragraph : Value) : Res string :=
  match paragraph with
  | Str p => Ok (Py.strip p)
  | Int _ => Raise AttributeError
  end.

(** [pd.notna(paragraph) and paragraph.strip()], as a truth value; the
    second operand is evaluated only when the first holds. *)
Definition has_text (paragraph : Cell) : Res bool :=
  match paragraph with
  | NaN => Ok false
  | Val v =>
      match strip_method v with
      | Ok stripped => Ok (Py.truthy stripped)
      | Raise e => Raise e
      end
  end.

(** The loop of [format_case_law_paragraphs] over [group_df.iterrows()],
    with [paragraphs_list] as it stands on entry. *)
Fixpoint iterrows_paragraphs (group_df : DataFrame) (paragraphs_list : list string)
  : Res (list string) :=
  match group_df with
  | [] => Ok paragraphs_list
  | (idx, row) :: rest =>
      let url := get (url row) (Val (Str "Unknown URL")) in
      let para_id := get (para_id row) (Val (Str "Unknown")) in
      let paragraph := get (paragraphs row) (Val (Str "")) in
      match has_text paragraph with
      | Raise e => Raise e
      | Ok true =>
          iterrows_paragraphs rest
            (paragraphs_list ++ [case_law_block url para_id paragraph])
      | Ok false => iterrows_paragraphs rest paragraphs_list
      end
  end.

Definition SEPARATOR : string := Py.nl ++ "---" ++ Py.nl ++ Py.nl.

Definition format_case_law_paragraphs (group_df : DataFrame) : Res string :=
  match iterrows_paragraphs group_df [] with
  | Raise e => Raise e
  | Ok paragraphs_list => Ok (Py.join SEPARATOR paragraphs_list)
  end.

(** The items of a list handed to [str.join], which must all be [str]. *)
Fixpoint str_items (values : list Value) : Res (list string) :=
  match values with
  | [] => Ok []
  | Str s :: rest =>
      match str_items rest with
      | Ok items => Ok (s :: items)
      | Raise e => Raise e
      end
  | Int _ :: _ => Raise TypeError
  end.

(** [sep.join(values)] *)
Definition join_values (sep : string) (values : list Value) : Res string :=
  match str_items values with
  | Ok items => Ok (Py.join sep items)
  | Raise e => Raise e
  end.

Definition get_case_terms (group_df : DataFrame) : Res string :=
  let case_terms := unique (dropna (column case_term group_df)) in
  if empty case_terms then Ok "None identified"
  else join_values ", " case_terms.

(** Line 107: the statutory text of a group. *)
Definition group_section_text (group_df : DataFrame) : Res Value :=
  if negb (empty (dropna (column section_text group_df)))
  then iloc0 (dropna (column section_text group_df))
  else Ok (Str "").

(** The values substituted into the template, lines 106 to 113 of
    [process_group], in the order in which they are computed. *)
Definition prompt_fields (legislation_term legislation_id : Value)
  (group_df : DataFrame) : Res Prompt.Fields :=
  match group_section_text group_df with
  | Raise e => Raise e
  | Ok section_text =>
      match format_case_law_paragraphs group_df with
      | Raise e => Raise e
      | Ok case_law_paragraphs =>
          match get_case_terms group_df with
          | Raise e => Raise e
          | Ok case_terms =>
              Ok {| Prompt.legislation_term := legislation_term;
                    Prompt.legislation_id := legislation_id;
                    Prompt.section_text := section_text;
                    Prompt.case_law_paragraphs := case_law_paragraphs;
                    Prompt.case_terms := case_terms |}
          end
      end
  end.

(** The loop of [call_claude_sonnet] over [message.content]. *)
Definition response_text (content : list ContentBlock) : string :=
  fold_left
    (fun acc content_block =>
       if String.eqb (type content_block) "text"
       then acc ++ text content_block else acc)
    content "".

Section Script.

Variable w : World.

Definition load_prompt_template : M string :=
  try_except (lift (prompt_txt w)) is_FileNotFoundError (fun e => raise e).

(** [client.messages.create(...)]: one more call to the service. *)
Definition create (prompt_text : string) : M (list ContentBlock) :=
  fun s => ({| api_calls := S (api_calls s); csv_reads := csv_reads s;
               naps := naps s; csv_files := csv_files s |},
            messages_create w (api_calls s) prompt_text).

Definition call_claude_sonnet (prompt_text : string) : M string :=
  try_except
    (content <- create prompt_text ;;
     ret (Py.strip (response_text content)))
    is_Exception
    (fun e => raise e).

(** The prompt of a group, lines 116 to 122. *)
Definition build_prompt (legislation_term legislation_id : Value)
  (group_df : DataFrame) (prompt_template : string) : Res string :=
  match prompt_fields legislation_term legislation_id group_df with
  | Raise e => Raise e
  | Ok fields => format w prompt_template fields
  end.

(** [process_group] returns the definition, or [None] when the call to the
    service raised. *)
Definition process_group (legislation_term legislation_id : Value)
  (group_df : DataFrame) (prompt_template : string) : M (option string) :=
  prompt <- lift (build_prompt legislation_term legislation_id group_df
                    prompt_template) ;;
  try_except
    (definition <- call_claude_sonnet prompt ;; ret (Some definition))
    is_Exception
    (fun e => ret None).

(** [definition if definition else "Error: Could not generate definition"] *)
Definition definition_or_placeholder (definition : option string) : string :=
  match definition with
  | Some d => if Py.truthy d then d else ERROR_PLACEHOLDER
  | None => ERROR_PLACEHOLDER
  end.

Definition intermediate_file (processed : nat) : string :=
  "definitions_intermediate_" ++ Py.str_of_nat processed ++ ".csv".

(** One turn of the loop of [main], lines 188 to 209, on the local
    variables [results] and [processed]. *)
Definition loop_body (prompt_template : string) (group : Key * DataFrame)
  (locals : list ResultRecord * nat) : M (list ResultRecord * nat) :=
  let '((legislation_term, legislation_id), group_df) := group in
  let '(results, processed) := locals in
  let processed := processed + 1 in
  definition <- process_group legislation_term legislation_id group_df
                  prompt_template ;;
  let results :=
    (results ++ [ {| Result.legislation_id := legislation_id;
                     Result.legislation_term := legislation_term;
                     Result.legislation_term_definition :=
                       definition_or_placeholder definition |} ])%list in
  sleep ;;
  (if (processed mod 10 =? 0)%nat
   then to_csv (intermediate_file processed) results
   else ret tt) ;;
  ret (results, processed).

(** [for group in groups: loop_body] *)
Fixpoint for_groups (prompt_template : string) (groups : list (Key * DataFrame))
  (locals : list ResultRecord * nat) : M (list ResultRecord * nat) :=
  match groups with
  | [] => ret locals
  | group :: rest =>
      locals' <- loop_body prompt_template group locals ;;
      for_groups prompt_template rest locals'
  end.

(** [pd.read_csv(csv_file, encoding=enc, low_memory=False)] *)
Definition pd_read_csv (enc : Encoding) : M DataFrame :=
  fun s => ({| api_calls := api_calls s; csv_reads := csv_reads s ++ [enc];
               naps := naps s; csv_files := csv_files s |},
            match read_csv w enc with
            | Ok rows => Ok (RangeIndex rows)
            | Raise e => Raise e
            end).

(** Lines 165 to 169: the input loader. *)
Definition load_input : M DataFrame :=
  try_except (pd_read_csv utf_8) is_UnicodeDecodeError
    (fun _ => pd_read_csv latin_1).

Definition output_file : string := "legislation_term_definitions.csv".

Definition main : M unit :=
  prompt_template <- load_prompt_template ;;
  df <- load_input ;;
  let grouped := groupby df in
  let groups_list := grouped in
  locals <- for_groups prompt_template (firstn 1 groups_list) ([], 0) ;;
  let results := fst locals in
  to_csv output_file results ;;
  (* the summary reads results_df['legislation_term_definition'] *)
  if (List.length results =? 0)%nat
  then raise (KeyError "legislation_term_definition")
  else ret tt.

End Script.

(** ** Notions used in the statements *)

(** A row has a key when both of its key columns hold a value. *)
Definition keyed (ir : nat * Row) : bool :=
  match row_key (snd ir) with Some _ => true | None => false end.

(** The rows of all the groups, group after group. *)
Definition group_rows (groups : list (Key * DataFrame)) : DataFrame :=
  List.concat (map snd groups).

(** [groups] is a true partition of the rows [part]: every row of [part]
    is in exactly one group, the groups together hold the rows of [part]
    and nothing else, the rows of a group are in input order (ascending
    index labels), and rows with the same key are in the same group. *)
Definition partitions (part : DataFrame) (groups : list (Key * DataFrame)) : Prop :=
  (forall ir, In ir part -> exists! g, In g groups /\ In ir (snd g))
  /\ Permutation (group_rows groups) part
  /\ (forall g, In g groups -> StronglySorted lt (map fst (snd g)))
  /\ (forall g1 g2 ir1 ir2,
        In g1 groups -> In g2 groups -> In ir1 (snd g1) -> In ir2 (snd g2) ->
        row_key (snd ir1) = row_key (snd ir2) -> g1 = g2).

(** The grouping claim read over every row of the input. *)
Definition grouping_partitions_all_rows : Prop :=
  forall rows : list Row,
    partitions (RangeIndex rows) (groupby (RangeIndex rows)).

(** The paragraph text of a row, when the row has one that is neither
    missing, nor empty, nor white space only. *)
Definition paragraph_text (row : Row) : option string :=
  match paragraphs row with
  | Some (Val (Str p)) => if Py.blank p then None else Some p
  | _ => None
  end.

Definition has_paragraph_text (row : Row) : bool :=
  match paragraph_text row with Some _ => true | None => false end.

(** The paragraph of the row is a number, not a text. *)
Definition numeric_paragraph (row : Row) : bool :=
  match paragraphs row with
  | Some (Val (Int _)) => true
  | _ => false
  end.

(** The case term of the row is a number, not a text. *)
Definition numeric_case_term (row : Row) : bool :=
  match case_term row with
  | Val (Int _) => true
  | _ => false
  end.

(** The row is not passed over by the loop of the case-law section: its
    paragraph is a text that is not blank, or it is a number. *)
Definition with_text (row : Row) : bool :=
  match paragraph_text row with
  | Some _ => true
  | None => numeric_paragraph row
  end.

(** What a block shows for a column read with [row.get]: the default when
    the frame has no such column, [nan] for a missing value, a text as it
    is, an integer in decimal. *)
Definition shown (cell : option Cell) (default : string) : string :=
  match cell with
  | None => default
  | Some NaN => "nan"
  | Some (Val (Str s)) => s
  | Some (Val (Int z)) => Py.str_of_int z
  end.

(** The block the spec asks for: the source URL and the paragraph
    identifier on one line, the paragraph text on the next. *)
Definition spec_block (row : Row) (p : string) : string :=
  "Case Law: " ++ shown (url row) "Unknown URL"
  ++ " (Paragraph: " ++ shown (para_id row) "Unknown" ++ ")
" ++ p ++ "
".

(** One block per row with a paragraph text, in row order. *)
Definition spec_case_law_blocks (group_df : DataFrame) : list string :=
  flat_map
    (fun ir => match paragraph_text (snd ir) with
               | Some p => [spec_block (snd ir) p]
               | None => []
               end)
    group_df.

(** The blocks with the separator of the spec, a line of three dashes
    between two line feeds and an empty line, between two of them. *)
Fixpoint spec_section (blocks : list string) : string :=
  match blocks with
  | [] => ""
  | b :: rest =>
      match rest with
      | [] => b
      | _ :: _ => b ++ "
---

" ++ spec_section rest
      end
  end.

(** The terms as a list separated by a comma and a space. *)
Fixpoint spec_comma_separated (terms : list string) : string :=
  match terms with
  | [] => ""
  | t :: rest =>
      match rest with
      | [] => t
      | _ :: _ => t ++ ", " ++ spec_comma_separated rest
      end
  end.



(** What [process_group] returns for the outcome of its call. *)
Definition answer (outcome : Res (list ContentBlock)) : option string :=
  match outcome with
  | Ok content => Some (Py.strip (response_text content))
  | Raise _ => None
  end.

(** The system after one more call to the service. *)
Definition called (s : Sys) : Sys :=
  {| api_calls := S (api_calls s);
     csv_reads := csv_reads s;
     naps := naps s;
     csv_files := csv_files s |}.

(** The definition stored for a group, from the outcome of its call to
    the service. *)
Definition stored_definition (outcome : Res (list ContentBlock)) : string :=
  definition_or_placeholder
    match outcome with
    | Ok content => Some (Py.strip (response_text content))
    | Raise _ => None
    end.

(** The Result Record made for the group of key [k]. *)
Definition made_record (k : Key) (outcome : Res (list ContentBlock))
  : ResultRecord :=
  {| Result.legislation_id := snd k;
     Result.legislation_term := fst k;
     Result.legislation_term_definition := stored_definition outcome |}.

Definition record_key (r : ResultRecord) : Key :=
  (Result.legislation_term r, Result.legislation_id r).

(** The system after a turn of the loop that made its call to the service:
    one more call, one more pause, and a checkpoint file holding [results]
    when [processed] is a multiple of 10. *)
Definition after_turn (s : Sys) (processed : nat) (results : list ResultRecord)
  : Sys :=
  {| api_calls := S (api_calls s);
     csv_reads := csv_reads s;
     naps := S (naps s);
     csv_files :=
       csv_files s ++
       (if (processed mod 10 =? 0)%nat
        then [(intermediate_file processed, results)] else []) |}.

(** The checkpoint files the spec asks for while the records [recs] are
    added to [rs], the count of processed groups starting at [p]: one file
    at each count that is a multiple of 10, holding the records
    accumulated so far. *)
Definition checkpoints (rs : list ResultRecord) (p : nat)
  (recs : list ResultRecord) : list (string * list ResultRecord) :=
  map (fun n => (intermediate_file n, (rs ++ firstn (n - p) recs)%list))
      (filter (fun n => (n mod 10 =? 0)%nat) (seq (S p) (List.length recs))).

(** The system after the encodings [encs] were tried on the input file. *)
Definition tried (s : Sys) (encs : list Encoding) : Sys :=
  {| api_calls := api_calls s;
     csv_reads := csv_reads s ++ encs;
     naps := naps s;
     csv_files := csv_files s |}.

(** The system after one more file was written. *)
Definition wrote (s : Sys) (name : string) (results : list ResultRecord) : Sys :=
  {| api_calls := api_calls s;
     csv_reads := csv_reads s;
     naps := naps s;
     csv_files := csv_files s ++ [(name, results)] |}.

(** The frame made of the records of a read that succeeded. *)
Definition frame_of (read : Res (list Row)) : Res DataFrame :=
  match read with
  | Ok rows => Ok (RangeIndex rows)
  | Raise e => Raise e
  end.

(** A response without any text-typed segment. *)
Definition no_text_segment (content : list ContentBlock) : Prop :=
  forall b, In b content -> type b <> "text".

(** The empty-response claim, read on the Result Record: the definition
    stored for a response without text segment is the empty string. *)
Definition empty_response_stored_as_empty : Prop :=
  forall (w : World) (tpl : string) (k : Key) (gdf : DataFrame)
         (rs : list ResultRecord) (p : nat) (s : Sys)
         (prompt : string) (content : list ContentBlock),
    build_prompt w (fst k) (snd k) gdf tpl = Ok prompt ->
    messages_create w (api_calls s) prompt = Ok content ->
    no_text_segment content ->
    snd (call_claude_sonnet w prompt s) = Ok ""
    /\ snd (loop_body w tpl (k, gdf) (rs, p) s)
       = Ok ((rs ++ [ {| Result.legislation_id := snd k;
                         Result.legislation_term := fst k;
                         Result.legislation_term_definition := "" |} ])%list,
             p + 1).

(** ** Further notions *)

(** [content_block.type == "text"] *)
Definition is_text (content_block : ContentBlock) : bool :=
  String.eqb (type content_block) "text".

Definition starts_with_space (s : string) : bool :=
  match s with
  | EmptyString => false
  | String c _ => Py.isspace c
  end.

Fixpoint ends_with_space (s : string) : bool :=
  match s with
  | EmptyString => false
  | String c s' =>
      match s' with
      | EmptyString => Py.isspace c
      | String _ _ => ends_with_space s'
      end
  end.

(** A text that is not empty and has no white space at either end. *)
Definition trimmed (d : string) : Prop :=
  d <> "" /\ starts_with_space d = false /\ ends_with_space d = false.

(** [Series.str.contains(pattern)] on one value, for a pattern without
    regular-expression operator: [pattern] occurs somewhere in [s]. *)
Fixpoint str_contains (pattern s : string) : bool :=
  String.prefix pattern s
  || match s with
     | EmptyString => false
     | String _ s' => str_contains pattern s'
     end.

(** [str.contains('Error', na=False)] on the definition of a record *)
Definition contains_Error (r : ResultRecord) : bool :=
  str_contains "Error" (Result.legislation_term_definition r).

(** Lines 222 to 224: the two numbers the summary logs, first the one
    logged as successful, then the one logged as failed. The column read
    does not exist in a frame made of no record. *)
Definition summary (results : list ResultRecord) : Res (nat * nat) :=
  match results with
  | [] => Raise (KeyError "legislation_term_definition")
  | _ :: _ =>
      let successful := List.length (filter contains_Error results) in
      Ok (List.length results - successful, successful)
  end.

(** A record that holds the placeholder. *)
Definition is_placeholder (r : ResultRecord) : bool :=
  String.eqb (Result.legislation_term_definition r) ERROR_PLACEHOLDER.

(** ** Sample data *)

Module Sample.

Definition row (term id text link para paragraph case : Cell) : Row :=
  {| legislation_term := term; legislation_id := id; section_text := text;
     url := Some link; para_id := Some para; paragraphs := Some paragraph;
     case_term := case |}.

Definition txt (s : string) : Cell := Val (Str s).

Definition num (z : Z) : Cell := Val (Int z).

Definition r1 : Row :=
  row (txt "b") (txt "1") NaN (txt "u1") (num 1) (txt "para one")
      (txt "negligence").

Definition r2 : Row :=
  row (txt "a") (txt "2") (txt "s 2") (txt "u2") (num 2) (txt "   ")
      (txt "negligence").

Definition r3 : Row :=
  row (txt "b") (txt "1") (txt "s 1") NaN (num 3) (txt " p3 ")
      (txt "duty of care").

(** A row without a term. *)
Definition no_term : Row :=
  row NaN (txt "1") (txt "s 1") (txt "u4") (num 4) NaN NaN.

Definition df : DataFrame := RangeIndex [r1; r2; r3; no_term].

(** A group of four rows: two with the same case term, one with another,
    one with none; the second has an empty paragraph. *)
Definition g1 : Row :=
  row (txt "duty") (txt "s.1") NaN (txt "u1") (num 7) (txt "First.")
      (txt "negligence").

Definition g2 : Row :=
  row (txt "duty") (txt "s.1") (txt "A duty.") (txt "u2") (num 8) (txt "")
      (txt "negligence").

Definition g3 : Row :=
  row (txt "duty") (txt "s.1") (txt "Another.") (txt "u3") (num 9)
      (txt "Third.") (txt "duty of care").

Definition g4 : Row :=
  row (txt "duty") (txt "s.1") NaN (txt "u4") (num 10) NaN NaN.

Definition group : DataFrame := RangeIndex [g1; g2; g3; g4].





(** A row whose paragraph is a number, and one whose case term is. *)
Definition numeric_para : Row :=
  row (txt "a") (txt "1") NaN (txt "u") (num 1) (num 5) NaN.

Definition numeric_term : Row :=
  row (txt "a") (txt "1") NaN (txt "u") (num 1) (txt "p") (num 5).

Definition connection_error : exn :=
  Exception "APIConnectionError" "Connection error.".

(** The service is down for the first call and answers afterwards. *)
Definition api_first_down (n : nat) (prompt : string) : Res (list ContentBlock) :=
  match n with
  | 0 => Raise connection_error
  | S _ => Ok [ {| type := "text"; text := " A definition. " |} ]
  end.

(** The service answers with no segment at all. *)
Definition api_silent (n : nat) (prompt : string) : Res (list ContentBlock) :=
  Ok [].

(** The service answers with a tool-use segment only. *)
Definition api_tool_only (n : nat) (prompt : string) : Res (list ContentBlock) :=
  Ok [ {| type := "tool_use"; text := "" |} ].

(** A world whose input file is not valid UTF-8 but reads as Latin-1. *)
Definition world (api : nat -> string -> Res (list ContentBlock)) : World :=
  {| prompt_txt := Ok "T";
     read_csv := fun enc =>
       match enc with
       | utf_8 => Raise UnicodeDecodeError
       | latin_1 => Ok [r1; r2; r3; no_term]
       end;
     format := fun template fields =>
       Ok (template ++ str (Prompt.legislation_term fields));
     messages_create := api |}.

(** A template that shows its five values, one per line. *)
Definition show_fields (template : string) (fields : Prompt.Fields)
  : Res string :=
  Ok (template ++ str (Prompt.legislation_term fields) ++ Py.nl
      ++ str (Prompt.legislation_id fields) ++ Py.nl
      ++ str (Prompt.section_text fields) ++ Py.nl
      ++ Prompt.case_law_paragraphs fields ++ Py.nl
      ++ Prompt.case_terms fields).

(** A world whose template shows all its values and whose service
    answers. *)
Definition showing : World :=
  {| prompt_txt := Ok "T";
     read_csv := fun _ => Ok [g1; g2; g3; g4];
     format := show_fields;
     messages_create := fun _ _ =>
       Ok [ {| type := "text"; text := " A definition. " |} ] |}.

(** A world without input file. *)
Definition missing_file : World :=
  {| prompt_txt := Ok "T";
     read_csv := fun _ => Raise FileNotFoundError;
     format := fun template fields =>
       Ok (template ++ str (Prompt.legislation_term fields));
     messages_create := api_silent |}.

(** A world without template file. *)
Definition no_template : World :=
  {| prompt_txt := Raise FileNotFoundError;
     read_csv := fun _ => Ok [r1; r2; r3; no_term];
     format := fun template fields =>
       Ok (template ++ str (Prompt.legislation_term fields));
     messages_create := api_silent |}.

(** A world whose input file holds the header line only. *)
Definition empty_file : World :=
  {| prompt_txt := Ok "T";
     read_csv := fun _ => Ok [];
     format := fun template fields =>
       Ok (template ++ str (Prompt.legislation_term fields));
     messages_create := api_silent |}.

End Sample.

(** * Properties *)

Open Scope list_scope.

(** ** The order on keys *)

Section KeyOrder.

Lemma str_compare_refl (s : string) : String.compare s s = Eq.
Proof. apply String_as_OT.cmp_eq. reflexivity. Qed.

Lemma str_compare_lt_trans (a b c : string) :
  String.compare a b = Lt -> String.compare b c = Lt -> String.compare a c = Lt.
Proof.
  intros Hab Hbc.
  apply String_as_OT.cmp_lt.
  apply String_as_OT.lt_trans with b; apply String_as_OT.cmp_lt; assumption.
Qed.

Lemma value_compare_refl (a : Value) : value_compare a a = Eq.
Proof.
  destruct a; simpl; [apply str_compare_refl | apply Z.compare_refl].
Qed.

Lemma value_compare_eq (a b : Value) : value_compare a b = Eq <-> a = b.
Proof.
  split.
  - destruct a as [x|x], b as [y|y]; simpl; try discriminate; intros H.
    + apply String.compare_eq_iff in H. congruence.
    + apply Z.compare_eq_iff in H. congruence.
  - intros <-. apply value_compare_refl.
Qed.

Lemma value_compare_antisym (a b : Value) :
  value_compare a b = CompOpp (value_compare b a).
Proof.
  destruct a as [x|x], b as [y|y]; simpl; try reflexivity.
  - apply String.compare_antisym.
  - apply Z.compare_antisym.
Qed.

Lemma value_compare_lt_trans (a b c : Value) :
  value_compare a b = Lt -> value_compare b c = Lt -> value_compare a c = Lt.
Proof.
  destruct a as [x|x], b as [y|y], c as [z|z]; simpl;
    try discriminate; try reflexivity.
  - apply str_compare_lt_trans.
  - rewrite !Z.compare_lt_iff. apply Z.lt_trans.
Qed.

Lemma key_compare_eq (a b : Key) : key_compare a b = Eq <-> a = b.
Proof.
  destruct a as [a1 a2], b as [b1 b2]. unfold key_compare. simpl. split.
  - destruct (value_compare a1 b1) eqn:E1; try discriminate.
    intros E2.
    apply value_compare_eq in E1. apply value_compare_eq in E2.
    congruence.
  - intros H. inversion H. subst. now rewrite !value_compare_refl.
Qed.

Lemma key_compare_antisym (a b : Key) :
  key_compare a b = CompOpp (key_compare b a).
Proof.
  destruct a as [a1 a2], b as [b1 b2]. unfold key_compare. simpl.
  rewrite (value_compare_antisym b1 a1).
  destruct (value_compare a1 b1); simpl; auto.
  apply value_compare_antisym.
Qed.

Lemma key_lt_irrefl (a : Key) : ~ key_lt a a.
Proof.
  unfold key_lt. intros H.
  assert (E : key_compare a a = Eq) by (now apply key_compare_eq).
  congruence.
Qed.

Lemma key_lt_trans (a b c : Key) : key_lt a b -> key_lt b c -> key_lt a c.
Proof.
  destruct a as [a1 a2], b as [b1 b2], c as [c1 c2].
  unfold key_lt, key_compare. simpl.
  destruct (value_compare a1 b1) eqn:Eab; try discriminate;
    destruct (value_compare b1 c1) eqn:Ebc; try discriminate; intros H1 H2.
  - apply value_compare_eq in Eab. apply value_compare_eq in Ebc.
    subst. rewrite value_compare_refl. eapply value_compare_lt_trans; eauto.
  - apply value_compare_eq in Eab. subst. now rewrite Ebc.
  - apply value_compare_eq in Ebc. subst. now rewrite Eab.
  - now rewrite (value_compare_lt_trans _ _ _ Eab Ebc).
Qed.

Lemma value_eqb_eq (a b : Value) : value_eqb a b = true <-> a = b.
Proof.
  destruct a as [x|x], b as [y|y]; simpl.
  - rewrite String.eqb_eq. split; congruence.
  - split; discriminate.
  - split; discriminate.
  - rewrite Z.eqb_eq. split; congruence.
Qed.

Lemma key_eqb_eq (a b : Key) : key_eqb a b = true <-> a = b.
Proof.
  destruct a as [a1 a2], b as [b1 b2]. unfold key_eqb. simpl.
  rewrite andb_true_iff, !value_eqb_eq. split.
  - intros [-> ->]. reflexivity.
  - intros H. inversion H. auto.
Qed.

Lemma has_key_iff (k : Key) (r : Row) : has_key k r = true <-> row_key r = Some k.
Proof.
  unfold has_key. destruct (row_key r) as [k'|].
  - rewrite key_eqb_eq. split; congruence.
  - split; discriminate.
Qed.



End KeyOrder.

(** ** groupby *)

Section GroupBy.

Lemma insert_key_In (k x : Key) (ks : list Key) :
  In x (insert_key k ks) <-> x = k \/ In x ks.
Proof.
  induction ks as [|k' ks IH]; simpl.
  - intuition.
  - destruct (key_compare k k') eqn:E; simpl.
    + apply key_compare_eq in E. subst. intuition.
    + intuition.
    + rewrite IH. intuition.
Qed.

Lemma insert_key_HdRel (k a : Key) (ks : list Key) :
  HdRel key_lt a ks -> key_lt a k -> HdRel key_lt a (insert_key k ks).
Proof.
  intros Hhd Hak. destruct ks as [|k' ks]; simpl.
  - constructor. assumption.
  - inversion Hhd; subst.
    destruct (key_compare k k'); constructor; assumption.
Qed.

Lemma insert_key_Sorted (k : Key) (ks : list Key) :
  Sorted key_lt ks -> Sorted key_lt (insert_key k ks).
Proof.
  induction ks as [|k' ks IH]; simpl; intros Hs.
  - repeat constructor.
  - inversion Hs as [|? ? Hs' Hhd]; subst.
    destruct (key_compare k k') eqn:E.
    + assumption.
    + constructor; [assumption | constructor; assumption].
    + constructor.
      * apply IH. assumption.
      * apply insert_key_HdRel; [assumption|].
        unfold key_lt. rewrite key_compare_antisym, E. reflexivity.
Qed.

Lemma group_keys_Sorted (df : DataFrame) : StronglySorted key_lt (group_keys df).
Proof.
  apply Sorted_StronglySorted.
  - intros a b c. apply key_lt_trans.
  - unfold group_keys. induction (present_keys df) as [|k ks IH]; simpl.
    + constructor.
    + apply insert_key_Sorted. assumption.
Qed.

Lemma present_keys_In (k : Key) (df : DataFrame) :
  In k (present_keys df) <-> exists ir, In ir df /\ row_key (snd ir) = Some k.
Proof.
  induction df as [|[i r] df IH]; simpl.
  - split; [tauto | intros [? [[] _]]].
  - destruct (row_key r) as [k'|] eqn:E; simpl; rewrite ?IH; split.
    + intros [->|[ir [Hin Hk]]]; [exists (i, r) | exists ir]; auto.
    + intros [ir [[<-|Hin] Hk]]; simpl in *.
      * left. congruence.
      * right. exists ir. auto.
    + intros [ir [Hin Hk]]. exists ir. auto.
    + intros [ir [[<-|Hin] Hk]]; simpl in *; [congruence|]. exists ir. auto.
Qed.

Lemma group_keys_In (k : Key) (df : DataFrame) :
  In k (group_keys df) <-> exists ir, In ir df /\ row_key (snd ir) = Some k.
Proof.
  rewrite <- present_keys_In. unfold group_keys.
  induction (present_keys df) as [|k' ks IH]; simpl.
  - tauto.
  - rewrite insert_key_In, IH. intuition.
Qed.

Lemma StronglySorted_key_lt_NoDup (ks : list Key) :
  StronglySorted key_lt ks -> NoDup ks.
Proof.
  induction 1 as [|k ks Hs IH Hall]; constructor; auto.
  intros Hin. rewrite Forall_forall in Hall.
  apply (key_lt_irrefl (Hall _ Hin)).
Qed.

Lemma group_keys_NoDup (df : DataFrame) : NoDup (group_keys df).
Proof. apply StronglySorted_key_lt_NoDup, group_keys_Sorted. Qed.

Lemma groupby_keys (df : DataFrame) : map fst (groupby df) = group_keys df.
Proof.
  unfold groupby. rewrite map_map. simpl. apply map_id.
Qed.

Lemma groupby_In (g : Key * DataFrame) (df : DataFrame) :
  In g (groupby df) <->
  In (fst g) (group_keys df) /\ snd g = filter (fun ir => has_key (fst g) (snd ir)) df.
Proof.
  unfold groupby. rewrite in_map_iff. split.
  - intros [k [<- Hin]]. simpl. auto.
  - intros [Hin Heq]. exists (fst g). split; [|assumption].
    destruct g as [k gdf]. simpl in *. rewrite Heq. reflexivity.
Qed.

End GroupBy.

(** ** Grouping as a partition *)

Section Partition.

Lemma RangeIndex_labels (rows : list Row) :
  map fst (RangeIndex rows) = seq 0 (List.length rows).
Proof.
  unfold RangeIndex. generalize 0.
  induction rows as [|r rows IH]; intros n; simpl; [reflexivity|].
  now rewrite IH.
Qed.

Lemma seq_StronglySorted (len start : nat) : StronglySorted lt (seq start len).
Proof.
  revert start. induction len as [|len IH]; intros start; simpl; constructor.
  - apply IH.
  - apply Forall_forall. intros x Hx. apply in_seq in Hx. lia.
Qed.

Lemma filter_labels_sorted (p : nat * Row -> bool) (df : DataFrame) :
  StronglySorted lt (map fst df) -> StronglySorted lt (map fst (filter p df)).
Proof.
  induction df as [|ir df IH]; simpl; intros Hs; [constructor|].
  apply StronglySorted_inv in Hs. destruct Hs as [Hs Hall].
  destruct (p ir); simpl; [constructor|]; auto.
  rewrite Forall_forall in *. intros x Hx.
  apply in_map_iff in Hx. destruct Hx as [y [<- Hy]].
  apply filter_In in Hy. apply Hall. apply in_map. tauto.
Qed.

(** Two tests that never hold together split a filtered list in two. *)
Lemma filter_orb_Permutation (A : Type) (p q : A -> bool) (l : list A) :
  (forall x, In x l -> p x = true -> q x = false) ->
  Permutation (filter (fun x => p x || q x) l) (filter p l ++ filter q l).
Proof.
  induction l as [|a l IH]; simpl; intros Hdis; [constructor|].
  assert (IH' := IH (fun x Hx => Hdis x (or_intror Hx))).
  destruct (p a) eqn:Ep; simpl.
  - rewrite (Hdis a (or_introl eq_refl) Ep). now constructor.
  - destruct (q a); simpl; [|assumption].
    now apply Permutation_cons_app.
Qed.

Lemma groups_Permutation (df : DataFrame) (ks : list Key) :
  NoDup ks ->
  Permutation
    (List.concat (map (fun k => filter (fun ir => has_key k (snd ir)) df) ks))
    (filter (fun ir => existsb (fun k => has_key k (snd ir)) ks) df).
Proof.
  induction 1 as [|k ks Hnotin Hnd IH]; simpl.
  - induction df as [|ir df IHdf]; simpl; auto.
  - rewrite filter_orb_Permutation.
    + apply Permutation_app_head. exact IH.
    + intros ir _ Hk. apply has_key_iff in Hk.
      apply not_true_is_false. intros Hex.
      apply existsb_exists in Hex. destruct Hex as [k' [Hin Hk']].
      apply has_key_iff in Hk'. congruence.
Qed.

Lemma keyed_iff (ir : nat * Row) (df : DataFrame) :
  In ir df ->
  existsb (fun k => has_key k (snd ir)) (group_keys df) = keyed ir.
Proof.
  intros Hin. unfold keyed. destruct (row_key (snd ir)) as [k|] eqn:E.
  - apply existsb_exists. exists k. split.
    + apply group_keys_In. exists ir. auto.
    + now apply has_key_iff.
  - apply not_true_is_false. intros Hex.
    apply existsb_exists in Hex. destruct Hex as [k [_ Hk]].
    apply has_key_iff in Hk. congruence.
Qed.

Lemma group_rows_Permutation (df : DataFrame) :
  Permutation (group_rows (groupby df)) (filter keyed df).
Proof.
  unfold group_rows, groupby. rewrite map_map. simpl.
  rewrite groups_Permutation by apply group_keys_NoDup.
  erewrite filter_ext_in; [reflexivity|].
  intros ir Hin. now apply keyed_iff.
Qed.

Lemma group_member (df : DataFrame) (g : Key * DataFrame) (ir : nat * Row) :
  In g (groupby df) -> In ir (snd g) ->
  In ir df /\ row_key (snd ir) = Some (fst g).
Proof.
  intros Hg Hir. apply groupby_In in Hg. destruct Hg as [_ Hg].
  rewrite Hg in Hir. apply filter_In in Hir.
  destruct Hir as [Hin Hk]. apply has_key_iff in Hk. auto.
Qed.

Lemma group_unique (df : DataFrame) (g1 g2 : Key * DataFrame) :
  In g1 (groupby df) -> In g2 (groupby df) -> fst g1 = fst g2 -> g1 = g2.
Proof.
  intros H1 H2 Hk. apply groupby_In in H1, H2.
  destruct g1 as [k1 d1], g2 as [k2 d2]. simpl in *. subst k2.
  destruct H1 as [_ ->], H2 as [_ ->]. reflexivity.
Qed.

Lemma group_of_row (df : DataFrame) (ir : nat * Row) (k : Key) :
  In ir df -> row_key (snd ir) = Some k ->
  exists gdf, In (k, gdf) (groupby df) /\ In ir gdf.
Proof.
  intros Hin Hk. exists (filter (fun ir => has_key k (snd ir)) df). split.
  - apply groupby_In. simpl. split; [|reflexivity].
    apply group_keys_In. exists ir. auto.
  - apply filter_In. split; [assumption|]. now apply has_key_iff.
Qed.

End Partition.

Section GroupingClaims.

(** C3, as stated, fails: a row whose term is missing is put in no group
    ([groupby] drops rows with a missing key). *)
Lemma grouping_drops_rows_without_key : ~ grouping_partitions_all_rows.
Proof.
  intros H. destruct (H [Sample.no_term]) as [Hone _].
  destruct (Hone (0, Sample.no_term)) as [g [[Hg _] _]].
  - left. reflexivity.
  - exact Hg.
Qed.

(** C3, amended: for every input row set, grouping by (term, legislation
    identifier) is a true partition of the rows whose term and identifier
    are both present: each such row belongs to exactly one group, the
    union of the group rows is the set of those rows, rows within a group
    retain input order, and no two rows with the same key land in
    different groups. A row with a missing term or identifier belongs to
    no group. *)
Theorem grouping_partitions_keyed_rows :
  forall rows : list Row,
    let df := RangeIndex rows in
    partitions (filter keyed df) (groupby df)
    /\ (forall ir g,
          In ir df -> keyed ir = false -> In g (groupby df) -> ~ In ir (snd g)).
Proof.
  intros rows df. split; [repeat split|].
  - intros ir Hir. apply filter_In in Hir. destruct Hir as [Hin Hk].
    unfold keyed in Hk. destruct (row_key (snd ir)) as [k|] eqn:E; [|discriminate].
    destruct (group_of_row df ir Hin E) as [gdf [Hg Hmem]].
    exists (k, gdf). split; [split; assumption|].
    intros g' [Hg' Hmem'].
    destruct (group_member df g' ir Hg' Hmem') as [_ Hk'].
    symmetry. apply (group_unique df); auto. simpl. congruence.
  - apply group_rows_Permutation.
  - intros g Hg. apply groupby_In in Hg. destruct Hg as [_ ->].
    apply filter_labels_sorted. unfold df. rewrite RangeIndex_labels.
    apply seq_StronglySorted.
  - intros g1 g2 ir1 ir2 Hg1 Hg2 H1 H2 Hk.
    destruct (group_member df g1 ir1 Hg1 H1) as [_ Hk1].
    destruct (group_member df g2 ir2 Hg2 H2) as [_ Hk2].
    apply (group_unique df); auto. congruence.
  - intros ir g Hin Hk Hg Hmem.
    destruct (group_member df g ir Hg Hmem) as [_ Hk'].
    unfold keyed in Hk. rewrite Hk' in Hk. discriminate.
Qed.

End GroupingClaims.

(** ** Python strings *)

Section Strings.

Lemma lstrip_blank (s : string) : Py.blank (Py.lstrip s) = Py.blank s.
Proof.
  induction s as [|c s IH]; simpl; [reflexivity|].
  destruct (Py.isspace c) eqn:E; simpl; [assumption|].
  now rewrite E.
Qed.

Lemma rstrip_truthy (s : string) : Py.truthy (Py.rstrip s) = negb (Py.blank s).
Proof.
  induction s as [|c s IH]; simpl; [reflexivity|].
  destruct (Py.rstrip s) eqn:Er; simpl in *.
  - apply (f_equal negb) in IH. rewrite negb_involutive in IH. simpl in IH.
    rewrite <- IH, andb_true_r. now destruct (Py.isspace c).
  - symmetry in IH. apply negb_true_iff in IH. now rewrite IH, andb_false_r.
Qed.

(** [s.strip()] is truthy exactly when [s] is not all white space. *)
Lemma strip_truthy (s : string) : Py.truthy (Py.strip s) = negb (Py.blank s).
Proof. unfold Py.strip. now rewrite rstrip_truthy, lstrip_blank. Qed.

Lemma strip_empty : Py.strip "" = "".
Proof. reflexivity. Qed.

End Strings.

(** ** The values substituted into the prompt *)

Section PromptBuilder.

Lemma dropna_In (v : Value) (col : list Cell) :
  In v (dropna col) <-> In (Val v) col.
Proof.
  induction col as [|[|x] col IH]; simpl.
  - tauto.
  - rewrite IH. split; [auto|]. intros [H|H]; [discriminate | assumption].
  - rewrite IH. split; (intros [H|H]; [left; congruence | right; assumption]).
Qed.

Lemma dropna_split (col : list Cell) (m1 m2 : list Value) (v : Value) :
  dropna col = m1 ++ v :: m2 ->
  exists c1 c2, col = c1 ++ Val v :: c2 /\ dropna c1 = m1 /\ dropna c2 = m2.
Proof.
  revert m1. induction col as [|[|x] col IH]; simpl; intros m1 H.
  - destruct m1; discriminate.
  - destruct (IH m1 H) as [c1 [c2 [-> [H1 H2]]]].
    exists (NaN :: c1), c2. simpl. auto.
  - destruct m1 as [|y m1]; simpl in H; inversion H; subst.
    + exists [], col. auto.
    + destruct (IH m1 H2) as [c1 [c2 [-> [H3 H4]]]].
      exists (Val y :: c1), c2. simpl. rewrite H3. auto.
Qed.

Lemma dropna_nil (col : list Cell) :
  dropna col = [] -> Forall (fun c => c = NaN) col.
Proof.
  induction col as [|[|x] col IH]; simpl; intros H;
    [constructor | constructor; auto | discriminate].
Qed.

Lemma dropna_app (c1 c2 : list Cell) : dropna (c1 ++ c2) = dropna c1 ++ dropna c2.
Proof.
  induction c1 as [|[|x] c1 IH]; simpl; [reflexivity | assumption|].
  now rewrite IH.
Qed.

Lemma value_eqb_refl (v : Value) : value_eqb v v = true.
Proof. now apply value_eqb_eq. Qed.

Lemma value_eq_dec (a b : Value) : {a = b} + {a <> b}.
Proof.
  destruct (value_eqb a b) eqn:E.
  - left. now apply value_eqb_eq.
  - right. intros H. apply value_eqb_eq in H. congruence.
Qed.

Lemma seen_iff (v : Value) (seen : list Value) :
  existsb (value_eqb v) seen = true <-> In v seen.
Proof.
  rewrite existsb_exists. split.
  - intros [x [Hin Heq]]. apply value_eqb_eq in Heq. congruence.
  - intros Hin. exists v. split; [assumption | apply value_eqb_refl].
Qed.

Lemma unique_from_In (u : Value) (values seen : list Value) :
  In u (unique_from seen values) <-> In u values /\ ~ In u seen.
Proof.
  revert seen. induction values as [|x rest IH]; intros seen; simpl.
  - tauto.
  - destruct (existsb (value_eqb x) seen) eqn:E.
    + apply seen_iff in E. rewrite IH. split.
      * tauto.
      * intros [[->|H] Hn]; [contradiction | auto].
    + assert (Hx : ~ In x seen).
      { intros H. apply seen_iff in H. congruence. }
      simpl. rewrite IH. simpl. split.
      * intros [->|[H Hn]]; [auto | tauto].
      * intros [[->|H] Hn]; [auto|].
        destruct (value_eq_dec x u) as [->|Hne]; [auto | right; tauto].
Qed.

Lemma unique_from_NoDup (values seen : list Value) :
  NoDup (unique_from seen values).
Proof.
  revert seen. induction values as [|x rest IH]; intros seen; simpl.
  - constructor.
  - destruct (existsb (value_eqb x) seen); [apply IH|].
    constructor; [|apply IH].
    rewrite unique_from_In. simpl. tauto.
Qed.

(** A value listed by [unique] first occurs before every value listed
    after it. *)
Lemma unique_from_order (values seen m1 m2 : list Value) (v : Value) :
  unique_from seen values = m1 ++ v :: m2 ->
  exists c1 c2, values = c1 ++ v :: c2 /\ forall u, In u m2 -> ~ In u c1.
Proof.
  revert seen m1. induction values as [|x rest IH]; intros seen m1; simpl.
  - destruct m1; discriminate.
  - destruct (existsb (value_eqb x) seen) eqn:E.
    + intros H. destruct (IH _ _ H) as [c1 [c2 [-> Hc]]].
      exists (x :: c1), c2. split; [reflexivity|].
      intros u Hu [<-|Hin]; [|exact (Hc u Hu Hin)].
      apply seen_iff in E.
      assert (Hm : In x (unique_from seen (c1 ++ v :: c2))).
      { rewrite H. apply in_or_app. right. right. assumption. }
      apply unique_from_In in Hm. tauto.
    + intros H. destruct m1 as [|y m1]; simpl in H; inversion H; subst.
      * exists [], rest. split; [reflexivity | intros u _ []].
      * destruct (IH _ _ H2) as [c1 [c2 [-> Hc]]].
        exists (y :: c1), c2. split; [reflexivity|].
        intros u Hu [<-|Hin]; [|exact (Hc u Hu Hin)].
        assert (Hm : In y (unique_from (y :: seen) (c1 ++ v :: c2))).
        { rewrite H2. apply in_or_app. right. right. assumption. }
        apply unique_from_In in Hm. simpl in Hm. tauto.
Qed.

Lemma unique_from_app_seen (values seen : list Value) (v : Value) :
  In v seen \/ In v values ->
  unique_from seen (values ++ [v]) = unique_from seen values.
Proof.
  revert seen. induction values as [|x rest IH]; intros seen H; simpl.
  - destruct H as [H|[]]. apply seen_iff in H. now rewrite H.
  - destruct (existsb (value_eqb x) seen) eqn:E.
    + apply IH. destruct H as [H|[<-|H]]; auto.
      left. now apply seen_iff.
    + f_equal. apply IH. simpl. destruct H as [H|[<-|H]]; auto.
Qed.

(** *** Joining *)

Lemma str_items_texts (items : list string) :
  str_items (map Str items) = Ok items.
Proof.
  induction items as [|s items IH]; simpl; [reflexivity | now rewrite IH].
Qed.

Lemma str_items_number (values : list Value) :
  (exists z, In (Int z) values) -> str_items values = Raise TypeError.
Proof.
  induction values as [|[s|z] values IH]; intros [z' Hin]; simpl.
  - contradiction.
  - destruct Hin as [Hin|Hin]; [discriminate|].
    rewrite IH; [reflexivity | now exists z'].
  - reflexivity.
Qed.

Lemma all_texts (values : list Value) :
  (forall z, ~ In (Int z) values) -> exists items, values = map Str items.
Proof.
  induction values as [|[s|z] values IH]; intros H.
  - now exists [].
  - destruct IH as [items ->].
    + intros z Hz. apply (H z). now right.
    + now exists (s :: items).
  - exfalso. apply (H z). now left.
Qed.

Lemma join_comma (terms : list string) :
  Py.join ", " terms = spec_comma_separated terms.
Proof.
  unfold Py.join.
  induction terms as [|t rest IH]; [reflexivity|].
  cbn [String.concat spec_comma_separated].
  destruct rest; [reflexivity | now rewrite IH].
Qed.

Lemma join_separator (blocks : list string) :
  Py.join SEPARATOR blocks = spec_section blocks.
Proof.
  unfold Py.join.
  induction blocks as [|b rest IH]; [reflexivity|].
  cbn [String.concat spec_section].
  destruct rest; [reflexivity | now rewrite IH].
Qed.

(** *** The case terms *)

Lemma no_numeric_term_column (group_df : DataFrame) :
  existsb (fun ir => numeric_case_term (snd ir)) group_df = false ->
  forall z, ~ In (Int z) (unique (dropna (column case_term group_df))).
Proof.
  intros H z Hin. unfold unique in Hin.
  apply unique_from_In in Hin. destruct Hin as [Hin _].
  apply dropna_In in Hin. unfold column in Hin.
  apply in_map_iff in Hin. destruct Hin as [ir [Hc Hir]].
  assert (Hex : existsb (fun ir => numeric_case_term (snd ir)) group_df = true).
  { apply existsb_exists. exists ir. split; [assumption|].
    unfold numeric_case_term. now rewrite Hc. }
  congruence.
Qed.

Lemma numeric_term_column (group_df : DataFrame) :
  existsb (fun ir => numeric_case_term (snd ir)) group_df = true ->
  exists z, In (Int z) (unique (dropna (column case_term group_df))).
Proof.
  intros H. apply existsb_exists in H. destruct H as [ir [Hin Hn]].
  unfold numeric_case_term in Hn.
  destruct (case_term (snd ir)) as [|[s|z]] eqn:E; try discriminate.
  exists z. unfold unique. apply unique_from_In. split; [|tauto].
  apply dropna_In. unfold column. apply in_map_iff. exists ir. auto.
Qed.

(** [get_case_terms] raises TypeError when a case term is a number, and
    else gives the marker or the terms separated by a comma and a space. *)
Lemma get_case_terms_spec (group_df : DataFrame) :
  if existsb (fun ir => numeric_case_term (snd ir)) group_df
  then get_case_terms group_df = Raise TypeError
  else exists terms,
         unique (dropna (column case_term group_df)) = map Str terms
         /\ get_case_terms group_df
            = Ok match terms with
                 | [] => "None identified"
                 | _ :: _ => spec_comma_separated terms
                 end.
Proof.
  destruct (existsb (fun ir => numeric_case_term (snd ir)) group_df) eqn:E.
  - pose proof (numeric_term_column group_df E) as Hz.
    unfold get_case_terms, join_values.
    rewrite (str_items_number _ Hz).
    destruct Hz as [z Hz].
    destruct (unique (dropna (column case_term group_df)));
      [contradiction | reflexivity].
  - destruct (all_texts _ (no_numeric_term_column group_df E)) as [terms Ht].
    exists terms. split; [exact Ht|].
    unfold get_case_terms, join_values. rewrite Ht, str_items_texts.
    destruct terms; [reflexivity|]. simpl empty. cbv iota.
    now rewrite join_comma.
Qed.

(** *** The case-law section *)

Lemma block_text (a b p : string) :
  ("Case Law: " ++ a ++ " (Paragraph: " ++ b ++ ")" ++ Py.nl ++ p ++ Py.nl)%string
  = ("Case Law: " ++ a ++ " (Paragraph: " ++ b ++ ")
" ++ p ++ "
")%string.
Proof.
  reflexivity.
Qed.

Lemma fmt_get (cell : option Cell) (default : string) :
  fmt (get cell (Val (Str default))) = shown cell default.
Proof. destruct cell as [[|[s|z]]|]; reflexivity. Qed.

Lemma case_law_block_spec (row : Row) (p : string) :
  case_law_block (get (url row) (Val (Str "Unknown URL")))
    (get (para_id row) (Val (Str "Unknown"))) (Val (Str p))
  = spec_block row p.
Proof.
  unfold case_law_block, spec_block. rewrite !fmt_get. apply block_text.
Qed.

(** The loop raises AttributeError when a paragraph is a number, and else
    adds one block per row with a paragraph text. *)
Lemma iterrows_paragraphs_spec (group_df : DataFrame) (paragraphs_list : list string) :
  iterrows_paragraphs group_df paragraphs_list
  = if existsb (fun ir => numeric_paragraph (snd ir)) group_df
    then Raise AttributeError
    else Ok (paragraphs_list ++ spec_case_law_blocks group_df).
Proof.
  revert paragraphs_list.
  induction group_df as [|[idx row] rest IH]; intros acc.
  - simpl. now rewrite app_nil_r.
  - cbn [iterrows_paragraphs existsb spec_case_law_blocks flat_map snd].
    unfold numeric_paragraph at 1, paragraph_text at 1.
    destruct (paragraphs row) as [[|[p|z]]|] eqn:E; cbn [get has_text strip_method].
    + rewrite IH. cbn [orb app]. reflexivity.
    + rewrite strip_truthy.
      destruct (Py.blank p) eqn:Eb; cbn [negb orb app]; rewrite IH.
      * reflexivity.
      * destruct (existsb (fun ir => numeric_paragraph (snd ir)) rest);
          [reflexivity|].
        rewrite <- app_assoc. cbn [app].
        rewrite <- case_law_block_spec. reflexivity.
    + reflexivity.
    + change (Py.truthy (Py.strip "")) with false. cbv iota.
      rewrite IH. cbn [orb app]. reflexivity.
Qed.

Lemma format_case_law_paragraphs_spec (group_df : DataFrame) :
  format_case_law_paragraphs group_df
  = if existsb (fun ir => numeric_paragraph (snd ir)) group_df
    then Raise AttributeError
    else Ok (spec_section (spec_case_law_blocks group_df)).
Proof.
  unfold format_case_law_paragraphs. rewrite iterrows_paragraphs_spec.
  destruct (existsb (fun ir => numeric_paragraph (snd ir)) group_df);
    [reflexivity|].
  cbn [app]. now rewrite join_separator.
Qed.

Lemma spec_case_law_blocks_length (group_df : DataFrame) :
  List.length (spec_case_law_blocks group_df)
  = List.length (filter (fun ir => has_paragraph_text (snd ir)) group_df).
Proof.
  induction group_df as [|[idx row] rest IH]; simpl; [reflexivity|].
  unfold has_paragraph_text. destruct (paragraph_text row); simpl; now rewrite IH.
Qed.

(** *** The statutory text *)

Lemma group_section_text_first (group_df : DataFrame) :
  ((forall ir, In ir group_df -> section_text (snd ir) = NaN)
   /\ group_section_text group_df = Ok (Str ""))
  \/ (exists before ir after v,
        group_df = before ++ ir :: after
        /\ (forall x, In x before -> section_text (snd x) = NaN)
        /\ section_text (snd ir) = Val v
        /\ group_section_text group_df = Ok v).
Proof.
  unfold group_section_text.
  destruct (dropna (column section_text group_df)) as [|v rest] eqn:E; simpl.
  - left. split; [|reflexivity].
    apply dropna_nil in E. rewrite Forall_forall in E.
    intros ir Hin. apply E. unfold column.
    now apply (in_map (fun ir => section_text (snd ir))).
  - right. destruct (dropna_split _ [] rest v E) as [c1 [c2 [Hc [H1 _]]]].
    unfold column in Hc. apply map_eq_app in Hc.
    destruct Hc as [before [tail [-> [Hb Ht]]]].
    destruct tail as [|ir after]; [discriminate|].
    simpl in Ht. inversion Ht as [[Hv Ha]].
    exists before, ir, after, v. split; [reflexivity|].
    split; [|auto].
    apply dropna_nil in H1. rewrite Forall_forall in H1.
    intros x Hx. apply H1. rewrite <- Hb.
    now apply (in_map (fun ir => section_text (snd ir))).
Qed.

(** *** The prompt *)

(** The first value of the section texts of a group, as line 107 takes
    it. *)
Lemma group_section_text_total (group_df : DataFrame) :
  exists v, group_section_text group_df = Ok v.
Proof.
  destruct (group_section_text_first group_df)
    as [[_ H]|[b [ir [a [v [_ [_ [_ H]]]]]]]]; eauto.
Qed.

Lemma build_prompt_run (w : World) (t i : Value) (group_df : DataFrame)
  (tpl : string) (v : Value) :
  group_section_text group_df = Ok v ->
  build_prompt w t i group_df tpl
  = match format_case_law_paragraphs group_df with
    | Raise e => Raise e
    | Ok cl =>
        match get_case_terms group_df with
        | Raise e => Raise e
        | Ok ct =>
            format w tpl
              {| Prompt.legislation_term := t;
                 Prompt.legislation_id := i;
                 Prompt.section_text := v;
                 Prompt.case_law_paragraphs := cl;
                 Prompt.case_terms := ct |}
        end
    end.
Proof.
  intros Hv. unfold build_prompt, prompt_fields. rewrite Hv.
  destruct (format_case_law_paragraphs group_df); [|reflexivity].
  destruct (get_case_terms group_df); reflexivity.
Qed.

(** A prompt that was built was formatted from the values computed. *)
Lemma build_prompt_fields (w : World) (t i : Value) (group_df : DataFrame)
  (tpl prompt : string) (v : Value) :
  group_section_text group_df = Ok v ->
  build_prompt w t i group_df tpl = Ok prompt ->
  exists cl ct,
    format_case_law_paragraphs group_df = Ok cl
    /\ get_case_terms group_df = Ok ct
    /\ format w tpl
         {| Prompt.legislation_term := t;
            Prompt.legislation_id := i;
            Prompt.section_text := v;
            Prompt.case_law_paragraphs := cl;
            Prompt.case_terms := ct |} = Ok prompt.
Proof.
  intros Hv Hp. rewrite (build_prompt_run w t i group_df tpl Hv) in Hp.
  destruct (format_case_law_paragraphs group_df) as [cl|]; [|discriminate].
  destruct (get_case_terms group_df) as [ct|]; [|discriminate].
  exists cl, ct. auto.
Qed.

(** [process_group] sends the prompt it built to the service, once. *)
Lemma process_group_run (w : World) (t i : Value) (group_df : DataFrame)
  (tpl : string) (s : Sys) :
  process_group w t i group_df tpl s
  = match build_prompt w t i group_df tpl with
    | Raise e => (s, Raise e)
    | Ok prompt =>
        (called s, Ok (answer (messages_create w (api_calls s) prompt)))
    end.
Proof.
  unfold process_group, call_claude_sonnet, create, try_except, bind, lift,
    raise, ret, called, answer.
  destruct (build_prompt w t i group_df tpl) as [prompt|e]; [|reflexivity].
  destruct (messages_create w (api_calls s) prompt); reflexivity.
Qed.

End PromptBuilder.

Section PromptClaims.

Lemma column_split (f : Row -> Cell) (group_df : DataFrame)
  (c1 c2 : list Cell) (c : Cell) :
  column f group_df = c1 ++ c :: c2 ->
  exists before ir after,
    group_df = before ++ ir :: after
    /\ column f before = c1 /\ f (snd ir) = c.
Proof.
  unfold column. intros H. apply map_eq_app in H.
  destruct H as [before [tail [-> [Hb Ht]]]].
  destruct tail as [|ir after]; [discriminate|].
  simpl in Ht. inversion Ht. exists before, ir, after. auto.
Qed.

Lemma column_In (f : Row -> Cell) (group_df : DataFrame) (c : Cell) :
  In c (column f group_df) <-> exists ir, In ir group_df /\ f (snd ir) = c.
Proof.
  unfold column. rewrite in_map_iff. split; intros [ir [H1 H2]]; exists ir; auto.
Qed.

Lemma no_number_existsb (p : Row -> bool) (group_df : DataFrame) :
  (forall ir, In ir group_df -> p (snd ir) = false) ->
  existsb (fun ir => p (snd ir)) group_df = false.
Proof.
  intros H. apply not_true_is_false. intros Hex.
  apply existsb_exists in Hex. destruct Hex as [ir [Hin Hp]].
  rewrite (H ir Hin) in Hp. discriminate.
Qed.

(** The case terms of a prompt, as a list of texts. *)
Lemma case_terms_listed (group_df : DataFrame) (ct : string) :
  get_case_terms group_df = Ok ct ->
  exists terms,
    NoDup terms
    /\ (forall v, In v terms <->
                  exists ir, In ir group_df /\ case_term (snd ir) = Val (Str v))
    /\ (forall m1 v m2 u,
          terms = m1 ++ v :: m2 -> In u m2 ->
          exists before ir after,
            group_df = before ++ ir :: after
            /\ case_term (snd ir) = Val (Str v)
            /\ forall x, In x before -> case_term (snd x) <> Val (Str u))
    /\ ct = match terms with
            | [] => "None identified"
            | _ :: _ => spec_comma_separated terms
            end.
Proof.
  intros Hct. pose proof (get_case_terms_spec group_df) as Hspec.
  destruct (existsb (fun ir => numeric_case_term (snd ir)) group_df);
    [congruence|].
  destruct Hspec as [terms [Hu Hget]]. exists terms.
  assert (Hnd : NoDup (map Str terms)).
  { rewrite <- Hu. apply unique_from_NoDup. }
  split; [now apply NoDup_map_inv in Hnd|]. split; [|split].
  - intros v. rewrite <- column_In, <- dropna_In.
    transitivity (In (Str v) (map Str terms)).
    + split; [apply in_map|]. intros H. apply in_map_iff in H.
      destruct H as [x [Hx Hin]]. congruence.
    + rewrite <- Hu. unfold unique. rewrite unique_from_In. simpl. tauto.
  - intros m1 v m2 u Hsplit Hu2.
    assert (Hs : unique_from [] (dropna (column case_term group_df))
                 = map Str m1 ++ Str v :: map Str m2).
    { fold (unique (dropna (column case_term group_df))).
      rewrite Hu, Hsplit, map_app. reflexivity. }
    destruct (unique_from_order _ _ _ _ _ Hs) as [c1 [c2 [Hc Hnot]]].
    destruct (dropna_split _ _ _ _ Hc) as [d1 [d2 [Hd [H1 _]]]].
    destruct (column_split _ _ _ _ _ Hd) as [before [ir [after [Hg [Hb Hir]]]]].
    exists before, ir, after. split; [exact Hg|]. split; [exact Hir|].
    intros x Hx Hcase.
    apply (Hnot (Str u)); [now apply in_map|].
    rewrite <- H1, dropna_In, <- Hb. apply column_In. now exists x.
  - congruence.
Qed.

(** C4: for every group, the statutory text substituted into the prompt
    is the first value of the section_text column of the group's rows
    that is not missing, and the empty string when every value is missing
    (a field left empty in the file is read as a missing value). Line 107
    never raises; the prompt is what the template gives for that text and
    the two other computed values, and it is the text sent to the
    service. The last part shows the prompt of a sample group. *)
Theorem statutory_text_is_first_present_value :
  (forall (w : World) (prompt_template : string)
          (legislation_term legislation_id : Value) (group_df : DataFrame),
      exists v : Value,
        (((forall ir, In ir group_df -> section_text (snd ir) = NaN)
          /\ v = Str "")
         \/ (exists before ir after,
               group_df = before ++ ir :: after
               /\ (forall x, In x before -> section_text (snd x) = NaN)
               /\ section_text (snd ir) = Val v))
        /\ (forall cl ct,
              format_case_law_paragraphs group_df = Ok cl ->
              get_case_terms group_df = Ok ct ->
              build_prompt w legislation_term legislation_id group_df
                prompt_template
              = format w prompt_template
                  {| Prompt.legislation_term := legislation_term;
                     Prompt.legislation_id := legislation_id;
                     Prompt.section_text := v;
                     Prompt.case_law_paragraphs := cl;
                     Prompt.case_terms := ct |})
        /\ (forall prompt,
              build_prompt w legislation_term legislation_id group_df
                prompt_template = Ok prompt ->
              (exists cl ct,
                  format w prompt_template
                    {| Prompt.legislation_term := legislation_term;
                       Prompt.legislation_id := legislation_id;
                       Prompt.section_text := v;
                       Prompt.case_law_paragraphs := cl;
                       Prompt.case_terms := ct |} = Ok prompt)
              /\ forall s,
                   process_group w legislation_term legislation_id group_df
                     prompt_template s
                   = (called s,
                      Ok (answer (messages_create w (api_calls s) prompt)))))
  /\ build_prompt Sample.showing (Str "duty") (Str "s.1") Sample.group "T"
     = Ok "Tduty
s.1
A duty.
Case Law: u1 (Paragraph: 7)
First.

---

Case Law: u3 (Paragraph: 9)
Third.

negligence, duty of care".
Proof.
  split; [|reflexivity].
  intros w tpl t i group_df.
  assert (Hv : exists v,
             group_section_text group_df = Ok v
             /\ (((forall ir, In ir group_df -> section_text (snd ir) = NaN)
                  /\ v = Str "")
                 \/ (exists before ir after,
                       group_df = before ++ ir :: after
                       /\ (forall x, In x before -> section_text (snd x) = NaN)
                       /\ section_text (snd ir) = Val v))).
  { destruct (group_section_text_first group_df)
      as [[Hall H]|[b [ir [a [v [Hg [Hb [Hir H]]]]]]]].
    - exists (Str ""). split; [exact H|]. left. auto.
    - exists v. split; [exact H|]. right. exists b, ir, a. auto. }
  destruct Hv as [v [Hsec Hfirst]].
  exists v. split; [exact Hfirst|]. split.
  - intros cl ct Hcl Hct.
    rewrite (build_prompt_run w t i group_df tpl Hsec), Hcl, Hct. reflexivity.
  - intros prompt Hp. split.
    + destruct (build_prompt_fields w t i group_df tpl Hsec Hp)
        as [cl [ct [_ [_ Hf]]]].
      exists cl, ct. exact Hf.
    + intros s. now rewrite process_group_run, Hp.
Qed.

(** The sample group: its first row has no statutory text, its second has
    "A duty."; the prompt made with it is the one sent to the service. *)
Lemma statutory_text_is_first_present_value_witness :
  process_group Sample.showing (Str "duty") (Str "s.1") Sample.group "T" boot
  = (called boot,
     Ok (answer (messages_create Sample.showing (api_calls boot) "Tduty
s.1
A duty.
Case Law: u1 (Paragraph: 7)
First.

---

Case Law: u3 (Paragraph: 9)
Third.

negligence, duty of care"))).
Proof.
  destruct statutory_text_is_first_present_value as [H Hsample].
  destruct (H Sample.showing "T" (Str "duty") (Str "s.1") Sample.group)
    as [v [_ [_ Hprompt]]].
  destruct (Hprompt _ Hsample) as [_ Hrun]. apply Hrun.
Defined.

(** C6: for every group, the case-terms value substituted into the prompt
    is the list, separated by a comma and a space, of the case terms of
    the group's rows that are not missing, each once, in the order of
    their first occurrence, and "None identified" when there is none; the
    value is there as soon as no case term is a number, and it is the one
    the prompt sent to the service is formatted from. The last part is
    the example of the spec. *)
Theorem case_terms_are_distinct_values_in_first_occurrence_order :
  (forall (w : World) (prompt_template : string)
          (legislation_term legislation_id : Value) (group_df : DataFrame),
      (forall ct,
          get_case_terms group_df = Ok ct ->
          exists terms,
            NoDup terms
            /\ (forall v, In v terms <->
                  exists ir, In ir group_df /\ case_term (snd ir) = Val (Str v))
            /\ (forall m1 v m2 u,
                  terms = m1 ++ v :: m2 -> In u m2 ->
                  exists before ir after,
                    group_df = before ++ ir :: after
                    /\ case_term (snd ir) = Val (Str v)
                    /\ forall x, In x before ->
                                 case_term (snd x) <> Val (Str u))
            /\ ct = match terms with
                    | [] => "None identified"
                    | _ :: _ => spec_comma_separated terms
                    end)
      /\ ((forall ir, In ir group_df -> numeric_case_term (snd ir) = false) ->
          exists ct, get_case_terms group_df = Ok ct)
      /\ (forall prompt,
            build_prompt w legislation_term legislation_id group_df
              prompt_template = Ok prompt ->
            (exists v cl ct,
                get_case_terms group_df = Ok ct
                /\ format w prompt_template
                     {| Prompt.legislation_term := legislation_term;
                        Prompt.legislation_id := legislation_id;
                        Prompt.section_text := v;
                        Prompt.case_law_paragraphs := cl;
                        Prompt.case_terms := ct |} = Ok prompt)
            /\ forall s,
                 process_group w legislation_term legislation_id group_df
                   prompt_template s
                 = (called s,
                    Ok (answer (messages_create w (api_calls s) prompt)))))
  /\ (forall group_df : DataFrame,
        map (fun ir => case_term (snd ir)) group_df
        = [Val (Str "negligence"); Val (Str "negligence");
           Val (Str "duty of care"); NaN] ->
        get_case_terms group_df = Ok "negligence, duty of care").
Proof.
  split.
  - intros w tpl t i group_df. split; [|split].
    + intros ct Hct. now apply case_terms_listed.
    + intros Hno. pose proof (get_case_terms_spec group_df) as Hspec.
      rewrite (no_number_existsb numeric_case_term group_df Hno) in Hspec.
      destruct Hspec as [terms [_ H]]. eauto.
    + intros prompt Hp. split.
      * destruct (group_section_text_total group_df) as [v Hsec].
        destruct (build_prompt_fields w t i group_df tpl Hsec Hp)
          as [cl [ct [_ [Hct Hf]]]].
        exists v, cl, ct. auto.
      * intros s. now rewrite process_group_run, Hp.
  - intros group_df H. unfold get_case_terms, column. rewrite H. reflexivity.
Qed.

(** The case terms of the sample group. *)
Lemma case_terms_are_distinct_values_in_first_occurrence_order_witness :
  get_case_terms Sample.group = Ok "negligence, duty of care"
  /\ exists terms,
       NoDup terms
       /\ (forall v, In v terms <->
             exists ir, In ir Sample.group /\ case_term (snd ir) = Val (Str v))
       /\ "negligence, duty of care"
          = match terms with
            | [] => "None identified"
            | _ :: _ => spec_comma_separated terms
            end.
Proof.
  destruct case_terms_are_distinct_values_in_first_occurrence_order
    as [H Hexample].
  assert (Hct : get_case_terms Sample.group = Ok "negligence, duty of care").
  { apply Hexample. reflexivity. }
  split; [exact Hct|].
  destruct (H Sample.showing "T" (Str "duty") (Str "s.1") Sample.group)
    as [Hterms _].
  destruct (Hterms _ Hct) as [terms [Hnd [Hin [_ Hjoin]]]].
  exists terms. auto.
Defined.

(** C7: for every group, the case-law section of the prompt is made of
    one block per row whose paragraph text is neither missing, nor empty,
    nor white space only, in row order: a block names the source URL and
    the paragraph identifier on one line and gives the paragraph text on
    the next; two blocks are separated by a line of three dashes between
    empty lines; the other rows give no block. The section is there as
    soon as no paragraph is a number, and it is the one the prompt sent to
    the service is formatted from. The last parts are the example of the
    spec, three rows of which the second has no text (missing, empty or
    white space only), and the section of three sample rows, the second
    with an empty text. *)
Theorem case_law_section_has_one_block_per_row_with_text :
  (forall (w : World) (prompt_template : string)
          (legislation_term legislation_id : Value) (group_df : DataFrame),
      (forall cl,
          format_case_law_paragraphs group_df = Ok cl ->
          cl = spec_section (spec_case_law_blocks group_df))
      /\ ((forall ir, In ir group_df -> numeric_paragraph (snd ir) = false) ->
          format_case_law_paragraphs group_df
          = Ok (spec_section (spec_case_law_blocks group_df)))
      /\ List.length (spec_case_law_blocks group_df)
         = List.length
             (filter (fun ir => has_paragraph_text (snd ir)) group_df)
      /\ (forall prompt,
            build_prompt w legislation_term legislation_id group_df
              prompt_template = Ok prompt ->
            (exists v ct,
                format w prompt_template
                  {| Prompt.legislation_term := legislation_term;
                     Prompt.legislation_id := legislation_id;
                     Prompt.section_text := v;
                     Prompt.case_law_paragraphs :=
                       spec_section (spec_case_law_blocks group_df);
                     Prompt.case_terms := ct |} = Ok prompt)
            /\ forall s,
                 process_group w legislation_term legislation_id group_df
                   prompt_template s
                 = (called s,
                    Ok (answer (messages_create w (api_calls s) prompt)))))
  /\ (forall (a b c : nat * Row) (pa pc : string),
        paragraph_text (snd a) = Some pa ->
        paragraph_text (snd b) = None ->
        numeric_paragraph (snd b) = false ->
        paragraph_text (snd c) = Some pc ->
        spec_case_law_blocks [a; b; c]
        = [spec_block (snd a) pa; spec_block (snd c) pc]
        /\ format_case_law_paragraphs [a; b; c]
           = Ok (spec_block (snd a) pa ++ "
---

" ++ spec_block (snd c) pc)%string)
  /\ format_case_law_paragraphs
       (RangeIndex [Sample.g1; Sample.g2; Sample.g3])
     = Ok "Case Law: u1 (Paragraph: 7)
First.

---

Case Law: u3 (Paragraph: 9)
Third.
".
Proof.
  split; [|split; [|reflexivity]].
  - intros w tpl t i group_df.
    pose proof (format_case_law_paragraphs_spec group_df) as Hspec.
    split; [|split; [|split]].
    + intros cl Hcl. rewrite Hcl in Hspec.
      destruct (existsb (fun ir => numeric_paragraph (snd ir)) group_df);
        congruence.
    + intros Hno.
      now rewrite (no_number_existsb numeric_paragraph group_df Hno) in Hspec.
    + apply spec_case_law_blocks_length.
    + intros prompt Hp. split.
      * destruct (group_section_text_total group_df) as [v Hsec].
        destruct (build_prompt_fields w t i group_df tpl Hsec Hp)
          as [cl [ct [Hcl [_ Hf]]]].
        exists v, ct. rewrite Hcl in Hspec.
        destruct (existsb (fun ir => numeric_paragraph (snd ir)) group_df);
          [discriminate|].
        inversion Hspec. subst cl. exact Hf.
      * intros s. now rewrite process_group_run, Hp.
  - intros a b c pa pc Ha Hb Hbn Hc.
    assert (Hblocks : spec_case_law_blocks [a; b; c]
                      = [spec_block (snd a) pa; spec_block (snd c) pc]).
    { unfold spec_case_law_blocks. cbn [flat_map].
      rewrite Ha, Hb, Hc. reflexivity. }
    split; [exact Hblocks|].
    rewrite format_case_law_paragraphs_spec, Hblocks.
    assert (Hnum : existsb (fun ir => numeric_paragraph (snd ir)) [a; b; c]
                   = false).
    { unfold paragraph_text in Ha, Hc. cbn [existsb]. rewrite Hbn.
      unfold numeric_paragraph.
      destruct (paragraphs (snd a)) as [[|[x|x]]|]; try discriminate.
      destruct (paragraphs (snd c)) as [[|[y|y]]|]; try discriminate.
      reflexivity. }
    rewrite Hnum. reflexivity.
Qed.

(** Three sample rows, the second with an empty paragraph. *)
Lemma case_law_section_has_one_block_per_row_with_text_witness :
  spec_case_law_blocks [(0, Sample.g1); (1, Sample.g2); (2, Sample.g3)]
  = [spec_block Sample.g1 "First."; spec_block Sample.g3 "Third."]
  /\ format_case_law_paragraphs
       [(0, Sample.g1); (1, Sample.g2); (2, Sample.g3)]
     = Ok (spec_block Sample.g1 "First." ++ "
---

" ++ spec_block Sample.g3 "Third.")%string.
Proof.
  destruct case_law_section_has_one_block_per_row_with_text as [_ [H _]].
  apply (H (0, Sample.g1) (1, Sample.g2) (2, Sample.g3) "First." "Third.");
    reflexivity.
Defined.

End PromptClaims.

(** ** One turn of the loop, and the loop *)

Section Loop.

Variable w : World.

Lemma loop_body_abort (tpl : string) (k : Key) (gdf : DataFrame)
  (rs : list ResultRecord) (p : nat) (s : Sys) (e : exn) :
  build_prompt w (fst k) (snd k) gdf tpl = Raise e ->
  loop_body w tpl (k, gdf) (rs, p) s = (s, Raise e).
Proof.
  destruct k as [t i]. cbn [fst snd]. intros H.
  unfold loop_body, process_group, bind, lift. now rewrite H.
Qed.

Lemma loop_body_run (tpl : string) (k : Key) (gdf : DataFrame)
  (rs : list ResultRecord) (p : nat) (s : Sys) (prompt : string) :
  build_prompt w (fst k) (snd k) gdf tpl = Ok prompt ->
  loop_body w tpl (k, gdf) (rs, p) s
  = (after_turn s (S p)
       (rs ++ [made_record k (messages_create w (api_calls s) prompt)]),
     Ok (rs ++ [made_record k (messages_create w (api_calls s) prompt)], S p)).
Proof.
  destruct k as [t i]. cbn [fst snd]. intros H.
  unfold loop_body, process_group, call_claude_sonnet, create, sleep, to_csv,
    try_except, bind, lift, ret, raise, after_turn, made_record,
    stored_definition.
  rewrite H, Nat.add_1_r.
  generalize (S p mod 10 =? 0)%nat (intermediate_file (S p)).
  intros checkpoint name.
  destruct (messages_create w (api_calls s) prompt) as [content|e];
    destruct checkpoint; cbn; rewrite ?app_nil_r; reflexivity.
Qed.

Lemma record_key_made (k : Key) (outcome : Res (list ContentBlock)) :
  record_key (made_record k outcome) = k.
Proof. now destruct k. Qed.

Lemma checkpoints_cons (rs : list ResultRecord) (p : nat)
  (r : ResultRecord) (recs : list ResultRecord) :
  checkpoints rs p (r :: recs)
  = ((if (S p mod 10 =? 0)%nat then [(intermediate_file (S p), rs ++ [r])] else [])
     ++ checkpoints (rs ++ [r]) (S p) recs)%list.
Proof.
  unfold checkpoints.
  change (List.length (r :: recs)) with (S (List.length recs)).
  rewrite <- cons_seq. cbn [filter].
  assert (Hrest :
    map (fun n => (intermediate_file n, rs ++ firstn (n - p) (r :: recs)))
        (filter (fun n => (n mod 10 =? 0)%nat) (seq (S (S p)) (List.length recs)))
    = map (fun n => (intermediate_file n, (rs ++ [r]) ++ firstn (n - S p) recs))
        (filter (fun n => (n mod 10 =? 0)%nat) (seq (S (S p)) (List.length recs)))).
  { apply map_ext_in. intros n Hn. apply filter_In in Hn. destruct Hn as [Hn _].
    apply in_seq in Hn. replace (n - p) with (S (n - S p)) by lia.
    cbn [firstn]. now rewrite <- app_assoc. }
  destruct (S p mod 10 =? 0)%nat; cbn [map app]; rewrite Hrest; [|reflexivity].
  replace (S p - p) with 1 by lia. reflexivity.
Qed.

(** What a run of the loop leaves behind: [recs] are the records made for
    the groups the loop got through. *)
Lemma for_groups_run (tpl : string) (groups : list (Key * DataFrame)) :
  forall (rs : list ResultRecord) (p : nat) (s : Sys),
  exists recs : list ResultRecord,
    List.length recs <= List.length groups
    /\ map record_key recs = firstn (List.length recs) (map fst groups)
    /\ api_calls (fst (for_groups w tpl groups (rs, p) s))
       = api_calls s + List.length recs
    /\ csv_reads (fst (for_groups w tpl groups (rs, p) s)) = csv_reads s
    /\ csv_files (fst (for_groups w tpl groups (rs, p) s))
       = (csv_files s ++ checkpoints rs p recs)%list
    /\ match snd (for_groups w tpl groups (rs, p) s) with
       | Ok (rs', p') =>
           rs' = (rs ++ recs)%list /\ p' = p + List.length recs
           /\ List.length recs = List.length groups
       | Raise e => List.length recs < List.length groups
       end.
Proof.
  induction groups as [|[k gdf] rest IH]; intros rs p s.
  - exists []. simpl. unfold checkpoints. simpl.
    rewrite !app_nil_r, !Nat.add_0_r. repeat split; auto.
  - destruct (build_prompt w (fst k) (snd k) gdf tpl) as [prompt|e] eqn:Hp.
    + set (r := made_record k (messages_create w (api_calls s) prompt)).
      destruct (IH (rs ++ [r])%list (S p) (after_turn s (S p) (rs ++ [r])))
        as [recs [Hlen [Hkeys [Hcalls [Hreads [Hfiles Hout]]]]]].
      exists (r :: recs).
      assert (Hrun : for_groups w tpl ((k, gdf) :: rest) (rs, p) s
                     = for_groups w tpl rest ((rs ++ [r])%list, S p)
                         (after_turn s (S p) (rs ++ [r]))).
      { cbn [for_groups]. unfold bind at 1.
        now rewrite loop_body_run with (prompt := prompt) by exact Hp. }
      rewrite Hrun, Hcalls, Hreads, Hfiles, checkpoints_cons.
      simpl List.length. simpl map. simpl firstn. rewrite Hkeys.
      split; [lia|]. split; [unfold r; now rewrite record_key_made|].
      split; [simpl; lia|].
      split; [reflexivity|]. split.
      * unfold after_turn. simpl. now rewrite <- app_assoc.
      * destruct (snd (for_groups w tpl rest ((rs ++ [r])%list, S p)
                         (after_turn s (S p) (rs ++ [r])))) as [[rs' p']|e].
        -- destruct Hout as [-> [-> Hl]]. rewrite <- app_assoc. simpl.
           repeat split; lia.
        -- lia.
    + exists [].
      assert (Habort : for_groups w tpl ((k, gdf) :: rest) (rs, p) s
                       = (s, Raise e)).
      { cbn [for_groups]. unfold bind at 1.
        now rewrite loop_body_abort with (e := e) by exact Hp. }
      rewrite Habort. unfold checkpoints. simpl.
      rewrite app_nil_r, Nat.add_0_r. repeat split; auto with arith.
Qed.

End Loop.

(** ** The run *)

Section Run.

Variable w : World.

Lemma load_prompt_template_run (s : Sys) :
  load_prompt_template w s = (s, prompt_txt w).
Proof.
  unfold load_prompt_template, try_except, lift, raise.
  destruct (prompt_txt w) as [tpl|[]]; reflexivity.
Qed.

Lemma load_input_run (s : Sys) :
  load_input w s
  = match read_csv w utf_8 with
    | Ok rows => (tried s [utf_8], Ok (RangeIndex rows))
    | Raise UnicodeDecodeError =>
        (tried s [utf_8; latin_1], frame_of (read_csv w latin_1))
    | Raise e => (tried s [utf_8], Raise e)
    end.
Proof.
  unfold load_input, try_except, pd_read_csv, tried, frame_of.
  destruct (read_csv w utf_8) as [rows|[]]; simpl; try reflexivity.
  now rewrite <- app_assoc.
Qed.

Lemma load_input_files (s : Sys) :
  csv_files (fst (load_input w s)) = csv_files s
  /\ api_calls (fst (load_input w s)) = api_calls s.
Proof.
  rewrite load_input_run.
  destruct (read_csv w utf_8) as [rows|[]]; simpl; auto.
Qed.

Lemma main_run (s : Sys) :
  main w s
  = match prompt_txt w with
    | Raise e => (s, Raise e)
    | Ok tpl =>
        match load_input w s with
        | (s1, Raise e) => (s1, Raise e)
        | (s1, Ok df) =>
            match for_groups w tpl (firstn 1 (groupby df)) ([], 0) s1 with
            | (s2, Raise e) => (s2, Raise e)
            | (s2, Ok locals) =>
                (wrote s2 output_file (fst locals),
                 if (List.length (fst locals) =? 0)%nat
                 then Raise (KeyError "legislation_term_definition")
                 else Ok tt)
            end
        end
    end.
Proof.
  unfold main. unfold bind at 1. rewrite load_prompt_template_run.
  destruct (prompt_txt w) as [tpl|e]; [|reflexivity].
  unfold bind at 1. destruct (load_input w s) as [s1 [df|e]]; [|reflexivity].
  unfold bind at 1.
  destruct (for_groups w tpl (firstn 1 (groupby df)) ([], 0) s1)
    as [s2 [locals|e]]; [|reflexivity].
  unfold bind, to_csv, wrote, raise, ret.
  destruct (List.length (fst locals) =? 0)%nat; reflexivity.
Qed.

Lemma checkpoints_none (rs recs : list ResultRecord) :
  List.length recs < 10 -> checkpoints rs 0 recs = [].
Proof.
  intros Hlen. unfold checkpoints.
  replace (filter (fun n => (n mod 10 =? 0)%nat) (seq 1 (List.length recs)))
    with (@nil nat); [reflexivity|].
  symmetry.
  assert (H : forall n, In n (seq 1 (List.length recs)) -> (n mod 10 =? 0)%nat = false).
  { intros n Hn. apply in_seq in Hn. apply Nat.eqb_neq.
    rewrite Nat.mod_small; lia. }
  induction (seq 1 (List.length recs)) as [|n l IH]; cbn [filter]; [reflexivity|].
  rewrite (H n (or_introl eq_refl)). apply IH.
  intros m Hm. apply H. now right.
Qed.

Lemma checkpoints_from_start (recs : list ResultRecord) :
  checkpoints [] 0 recs
  = map (fun n => (intermediate_file n, firstn n recs))
      (filter (fun n => (n mod 10 =? 0)%nat) (seq 1 (List.length recs))).
Proof.
  unfold checkpoints. apply map_ext. intros n. now rewrite Nat.sub_0_r.
Qed.

(** The loop of [main], over at most one group, writes no file; when it
    ends, it has made one record per group. *)
Lemma first_group_run (tpl : string) (df : DataFrame) (s : Sys) :
  csv_files (fst (for_groups w tpl (firstn 1 (groupby df)) ([], 0) s))
  = csv_files s
  /\ forall locals,
       snd (for_groups w tpl (firstn 1 (groupby df)) ([], 0) s) = Ok locals ->
       map record_key (fst locals) = map fst (firstn 1 (groupby df))
       /\ List.length (fst locals) = Nat.min 1 (List.length (groupby df)).
Proof.
  destruct (for_groups_run w tpl (firstn 1 (groupby df)) [] 0 s)
    as [recs [Hlen [Hkeys [_ [_ [Hfiles Hout]]]]]].
  assert (Hone : List.length (firstn 1 (groupby df))
                 = Nat.min 1 (List.length (groupby df))) by apply length_firstn.
  split.
  - rewrite Hfiles, checkpoints_none, app_nil_r; [reflexivity | lia].
  - intros locals Hok. rewrite Hok in Hout. destruct locals as [rs' p'].
    destruct Hout as [-> [_ Hl]]. cbn [fst app]. split; [|congruence].
    rewrite Hkeys, Hl, <- (length_map fst). apply firstn_all.
Qed.

End Run.

(** ** The run orchestrator *)

Section Orchestrator.

Lemma fold_no_text (content : list ContentBlock) (acc : string) :
  no_text_segment content ->
  fold_left
    (fun acc content_block =>
       if String.eqb (type content_block) "text"
       then (acc ++ text content_block)%string else acc)
    content acc = acc.
Proof.
  revert acc.
  induction content as [|b content IH]; intros acc Hno; cbn [fold_left];
    [reflexivity|].
  assert (Hb : String.eqb (type b) "text" = false).
  { apply String.eqb_neq. apply Hno. now left. }
  rewrite Hb. apply IH. intros b' Hin. apply Hno. now right.
Qed.

Lemma response_text_no_text (content : list ContentBlock) :
  no_text_segment content -> response_text content = "".
Proof. apply fold_no_text. Qed.

Lemma call_claude_sonnet_run (w : World) (prompt : string) (s : Sys) :
  snd (call_claude_sonnet w prompt s)
  = match messages_create w (api_calls s) prompt with
    | Ok content => Ok (Py.strip (response_text content))
    | Raise e => Raise e
    end.
Proof.
  unfold call_claude_sonnet, try_except, bind, create, ret, raise.
  destruct (messages_create w (api_calls s) prompt); reflexivity.
Qed.

(** C1: when the call to the service raises for a group, the turn of the
    loop does not raise: [process_group] returns [None], a Result Record
    with the placeholder as its definition is appended, and the loop goes
    on with the groups that remain. *)
Theorem failed_call_gives_placeholder_and_loop_goes_on :
  forall (w : World) (tpl : string) (k : Key) (gdf : DataFrame)
         (rest : list (Key * DataFrame)) (rs : list ResultRecord) (p : nat)
         (s : Sys) (prompt : string) (e : exn),
    build_prompt w (fst k) (snd k) gdf tpl = Ok prompt ->
    messages_create w (api_calls s) prompt = Raise e ->
    let r := {| Result.legislation_id := snd k;
                Result.legislation_term := fst k;
                Result.legislation_term_definition :=
                  "Error: Could not generate definition" |} in
    snd (process_group w (fst k) (snd k) gdf tpl s) = Ok None
    /\ loop_body w tpl (k, gdf) (rs, p) s
       = (after_turn s (p + 1) (rs ++ [r]), Ok (rs ++ [r], p + 1))
    /\ for_groups w tpl ((k, gdf) :: rest) (rs, p) s
       = for_groups w tpl rest (rs ++ [r], p + 1)
           (after_turn s (p + 1) (rs ++ [r])).
Proof.
  intros w tpl k gdf rest rs p s prompt e Hp He r.
  assert (Hbody : loop_body w tpl (k, gdf) (rs, p) s
                  = (after_turn s (p + 1) (rs ++ [r]), Ok (rs ++ [r], p + 1))).
  { rewrite loop_body_run with (prompt := prompt) by exact Hp.
    rewrite He, Nat.add_1_r. reflexivity. }
  split; [|split].
  - unfold process_group, call_claude_sonnet, create, try_except, bind, lift,
      raise, ret.
    rewrite Hp, He. reflexivity.
  - exact Hbody.
  - cbn [for_groups]. unfold bind at 1. now rewrite Hbody.
Qed.

(** A group whose call fails, followed by one whose call succeeds. *)
Lemma failed_call_gives_placeholder_and_loop_goes_on_witness :
  for_groups (Sample.world Sample.api_first_down) "T"
    [((Str "a", Str "2"), [(1, Sample.r2)]); ((Str "b", Str "1"), [(0, Sample.r1)])]
    ([], 0) boot
  = for_groups (Sample.world Sample.api_first_down) "T"
      [((Str "b", Str "1"), [(0, Sample.r1)])]
      ([ {| Result.legislation_id := Str "2";
            Result.legislation_term := Str "a";
            Result.legislation_term_definition :=
              "Error: Could not generate definition" |} ], 1)
      (after_turn boot 1
         [ {| Result.legislation_id := Str "2";
              Result.legislation_term := Str "a";
              Result.legislation_term_definition :=
                "Error: Could not generate definition" |} ]).
Proof.
  apply (@failed_call_gives_placeholder_and_loop_goes_on
           (Sample.world Sample.api_first_down) "T" (Str "a", Str "2")
           [(1, Sample.r2)] [((Str "b", Str "1"), [(0, Sample.r1)])] [] 0 boot
           "Ta" (Exception "APIConnectionError" "Connection error.")).
  - reflexivity.
  - reflexivity.
Defined.

(** C5, as stated, fails: a response without any text segment is stored
    as the placeholder, not as the empty string. *)
Lemma empty_response_is_not_stored_as_empty : ~ empty_response_stored_as_empty.
Proof.
  intros H.
  destruct (H (Sample.world Sample.api_silent) "T" (Str "a", Str "2") [(1, Sample.r2)]
              [] 0 boot "Ta" []) as [_ Hbody].
  - reflexivity.
  - reflexivity.
  - intros b [].
  - vm_compute in Hbody. discriminate Hbody.
Qed.

(** C5, amended: a response without any text-typed segment is not an
    error for the Definition Generator, [call_claude_sonnet] returns the
    empty string and does not raise; the Result Record of the group then
    holds the error placeholder, because the orchestrator stores the
    placeholder for an empty definition as it does for a failed call. *)
Theorem empty_response_gives_placeholder :
  forall (w : World) (tpl : string) (k : Key) (gdf : DataFrame)
         (rs : list ResultRecord) (p : nat) (s : Sys)
         (prompt : string) (content : list ContentBlock),
    build_prompt w (fst k) (snd k) gdf tpl = Ok prompt ->
    messages_create w (api_calls s) prompt = Ok content ->
    no_text_segment content ->
    let r := {| Result.legislation_id := snd k;
                Result.legislation_term := fst k;
                Result.legislation_term_definition :=
                  "Error: Could not generate definition" |} in
    snd (call_claude_sonnet w prompt s) = Ok ""
    /\ loop_body w tpl (k, gdf) (rs, p) s
       = (after_turn s (p + 1) (rs ++ [r]), Ok (rs ++ [r], p + 1)).
Proof.
  intros w tpl k gdf rs p s prompt content Hp Hc Hno r. split.
  - rewrite call_claude_sonnet_run, Hc, response_text_no_text by assumption.
    reflexivity.
  - rewrite loop_body_run with (prompt := prompt) by exact Hp.
    rewrite Hc, Nat.add_1_r. unfold made_record, stored_definition.
    rewrite response_text_no_text by assumption. reflexivity.
Qed.

(** A response made of one tool-use segment only. *)
Lemma empty_response_gives_placeholder_witness :
  snd (call_claude_sonnet (Sample.world Sample.api_tool_only) "Ta" boot) = Ok ""
  /\ snd (loop_body (Sample.world Sample.api_tool_only) "T"
            ((Str "a", Str "2"), [(1, Sample.r2)]) ([], 0) boot)
     = Ok ([ {| Result.legislation_id := Str "2";
                Result.legislation_term := Str "a";
                Result.legislation_term_definition :=
                  "Error: Could not generate definition" |} ], 1).
Proof.
  destruct (@empty_response_gives_placeholder
              (Sample.world Sample.api_tool_only) "T" (Str "a", Str "2")
              [(1, Sample.r2)] [] 0 boot "Ta"
              [ {| type := "tool_use"; text := "" |} ])
    as [Hcall Hbody].
  - reflexivity.
  - reflexivity.
  - intros b [<-|[]]. discriminate.
  - split; [exact Hcall | exact (f_equal snd Hbody)].
Defined.

End Orchestrator.

Section OrchestratorRun.

Lemma load_input_frame (w : World) (s : Sys) (df : DataFrame) :
  snd (load_input w s) = Ok df -> exists rows, df = RangeIndex rows.
Proof.
  rewrite load_input_run.
  destruct (read_csv w utf_8) as [rows|[]]; simpl; try discriminate.
  - intros H. inversion H. now exists rows.
  - destruct (read_csv w latin_1) as [rows|e]; simpl; [|discriminate].
    intros H. inversion H. now exists rows.
Qed.

(** The loop ends without raising when every prompt can be built. *)
Lemma for_groups_total (w : World) (tpl : string)
  (groups : list (Key * DataFrame)) :
  (forall g, In g groups ->
     exists prompt, build_prompt w (fst (fst g)) (snd (fst g)) (snd g) tpl = Ok prompt) ->
  forall rs p s, exists locals,
    snd (for_groups w tpl groups (rs, p) s) = Ok locals.
Proof.
  induction groups as [|[k gdf] rest IH]; intros Hall rs p s.
  - eexists. reflexivity.
  - destruct (Hall (k, gdf) (or_introl eq_refl)) as [prompt Hp].
    simpl in Hp. cbn [for_groups]. unfold bind at 1.
    rewrite loop_body_run with (prompt := prompt) by exact Hp.
    apply IH. intros g Hg. apply Hall. now right.
Qed.

(** What [main] leaves on disk: nothing when it stops before the end,
    and else the output file alone, with one record per group of
    [groups_list[:1]]. *)
Lemma main_files (w : World) (s : Sys) :
  (csv_files (fst (main w s)) = csv_files s
   /\ exists e, snd (main w s) = Raise e)
  \/ (exists tpl rows locals,
        prompt_txt w = Ok tpl
        /\ snd (load_input w s) = Ok (RangeIndex rows)
        /\ snd (for_groups w tpl (firstn 1 (groupby (RangeIndex rows)))
                  ([], 0) (fst (load_input w s))) = Ok locals
        /\ csv_files (fst (main w s))
           = csv_files s ++ [(output_file, fst locals)]).
Proof.
  rewrite main_run.
  destruct (prompt_txt w) as [tpl|e]; [|left; simpl; eauto].
  destruct (load_input_files w s) as [Hfiles _].
  pose proof (load_input_frame w s) as Hframe.
  destruct (load_input w s) as [s1 [df|e]]; cbn [fst snd] in *; [|left; eauto].
  destruct (Hframe df eq_refl) as [rows ->].
  destruct (first_group_run w tpl (RangeIndex rows) s1) as [Hloop _].
  destruct (for_groups w tpl (firstn 1 (groupby (RangeIndex rows))) ([], 0) s1)
    as [s2 [locals|e]] eqn:Erun; cbn [fst snd] in *.
  - right. exists tpl, rows, locals.
    split; [reflexivity|]. split; [reflexivity|]. rewrite Erun.
    split; [reflexivity|]. cbn. congruence.
  - left. split; [congruence | eauto].
Qed.

(** C2: a run of [main] either stops on a fatal error before any file is
    written, or writes the output file with exactly one Result Record per
    processed group, whatever the calls to the service did: the records
    carry the keys of the groups of [groups_list[:1]], in order, so their
    number is the number of groups under the limit of one group. The
    second case is the one that happens as soon as the template and the
    input load and the prompt of the first group can be built. *)
Theorem one_record_per_processed_group :
  forall (w : World) (s : Sys),
    ((csv_files (fst (main w s)) = csv_files s
      /\ exists e, snd (main w s) = Raise e)
     \/ (exists rows results,
           snd (load_input w s) = Ok (RangeIndex rows)
           /\ csv_files (fst (main w s)) = csv_files s ++ [(output_file, results)]
           /\ map record_key results
              = map fst (firstn 1 (groupby (RangeIndex rows)))
           /\ List.length results
              = Nat.min 1 (List.length (groupby (RangeIndex rows)))))
    /\ (forall tpl rows,
          prompt_txt w = Ok tpl ->
          snd (load_input w s) = Ok (RangeIndex rows) ->
          (forall g, In g (firstn 1 (groupby (RangeIndex rows))) ->
             exists prompt,
               build_prompt w (fst (fst g)) (snd (fst g)) (snd g) tpl = Ok prompt) ->
          exists results,
            csv_files (fst (main w s)) = csv_files s ++ [(output_file, results)]
            /\ map record_key results
               = map fst (firstn 1 (groupby (RangeIndex rows)))
            /\ List.length results
               = Nat.min 1 (List.length (groupby (RangeIndex rows)))).
Proof.
  intros w s. split.
  - destruct (main_files w s)
      as [Hstop|[tpl [rows [locals [Ht [Hl [Hrun Hfiles]]]]]]]; [now left|].
    right. exists rows, (fst locals).
    destruct (first_group_run w tpl (RangeIndex rows) (fst (load_input w s)))
      as [_ Hrec].
    destruct (Hrec locals Hrun) as [Hkeys Hlen]. auto.
  - intros tpl rows Ht Hl Hprompts.
    destruct (for_groups_total w tpl _ Hprompts [] 0 (fst (load_input w s)))
      as [locals Hrun].
    destruct (first_group_run w tpl (RangeIndex rows) (fst (load_input w s)))
      as [Hloop Hrec].
    destruct (Hrec locals Hrun) as [Hkeys Hlen].
    exists (fst locals). split; [|auto].
    rewrite main_run, Ht.
    destruct (load_input_files w s) as [Hfiles _].
    destruct (load_input w s) as [s1 r1]. cbn [fst snd] in *. subst r1.
    destruct (for_groups w tpl (firstn 1 (groupby (RangeIndex rows))) ([], 0) s1)
      as [s2 r2]. cbn [fst snd] in *. subst r2. cbn. congruence.
Qed.

(** The sample file, whose first call to the service fails: the output
    holds one record, for the group of the least key. *)
Lemma one_record_per_processed_group_witness :
  exists results,
    csv_files (fst (main (Sample.world Sample.api_first_down) boot))
    = csv_files boot ++ [(output_file, results)]
    /\ map record_key results = [(Str "a", Str "2")]
    /\ List.length results = 1.
Proof.
  destruct (one_record_per_processed_group
              (Sample.world Sample.api_first_down) boot) as [_ H].
  apply (H "T" [Sample.r1; Sample.r2; Sample.r3; Sample.no_term]).
  - reflexivity.
  - reflexivity.
  - intros g [<-|[]]. exists "Ta". reflexivity.
Defined.


(** Ten groups with the service silent: one checkpoint, written at the
    tenth group, with ten rows. *)
Lemma checkpoint_after_ten_groups :
  map (fun f => (fst f, List.length (snd f)))
    (csv_files
       (fst (for_groups (Sample.world Sample.api_silent) "T"
               (repeat ((Str "a", Str "2"), [(1, Sample.r2)]) 10) ([], 0) boot)))
  = [("definitions_intermediate_10.csv", 10)].
Proof. vm_compute. reflexivity. Qed.

(** C9: the input loader first reads the file as UTF-8; when that read
    raises UnicodeDecodeError, and only then, it reads the file once more,
    as Latin-1, and the outcome of that second read is the outcome of the
    loader; any other exception of the first read (a missing file), and
    any exception of the second read, leaves the loader, and then [main]
    stops with that exception without writing any file. *)
Theorem input_loader_tries_utf8_then_latin1 :
  forall (w : World) (s : Sys),
    (forall rows,
        read_csv w utf_8 = Ok rows ->
        load_input w s = (tried s [utf_8], Ok (RangeIndex rows)))
    /\ (read_csv w utf_8 = Raise UnicodeDecodeError ->
        load_input w s
        = (tried s [utf_8; latin_1], frame_of (read_csv w latin_1)))
    /\ (forall e,
          read_csv w utf_8 = Raise UnicodeDecodeError ->
          read_csv w latin_1 = Raise e ->
          load_input w s = (tried s [utf_8; latin_1], Raise e))
    /\ (forall e,
          read_csv w utf_8 = Raise e -> e <> UnicodeDecodeError ->
          load_input w s = (tried s [utf_8], Raise e))
    /\ (forall tpl e,
          prompt_txt w = Ok tpl ->
          snd (load_input w s) = Raise e ->
          main w s = (fst (load_input w s), Raise e)
          /\ csv_files (fst (main w s)) = csv_files s).
Proof.
  intros w s. repeat split.
  - intros rows H. now rewrite load_input_run, H.
  - intros H. now rewrite load_input_run, H.
  - intros e H1 H2. now rewrite load_input_run, H1, H2.
  - intros e H Hne. rewrite load_input_run, H.
    destruct e; try reflexivity. now contradiction Hne.
  - rewrite main_run, H. destruct (load_input w s) as [s1 r1].
    cbn [fst snd] in *. now subst r1.
  - rewrite main_run, H. destruct (load_input_files w s) as [Hfiles _].
    destruct (load_input w s) as [s1 r1]. cbn [fst snd] in *. now subst r1.
Qed.

(** The sample file is read as Latin-1 after UTF-8 failed; without input
    file, the loader raises FileNotFoundError after one read and [main]
    stops with it. *)
Lemma input_loader_tries_utf8_then_latin1_witness :
  csv_reads (fst (load_input (Sample.world Sample.api_silent) boot))
  = [utf_8; latin_1]
  /\ snd (load_input (Sample.world Sample.api_silent) boot) = Ok Sample.df
  /\ load_input Sample.missing_file boot
     = (tried boot [utf_8], Raise FileNotFoundError)
  /\ snd (main Sample.missing_file boot) = Raise FileNotFoundError.
Proof.
  destruct (input_loader_tries_utf8_then_latin1
              (Sample.world Sample.api_silent) boot) as [_ [H2 _]].
  destruct (input_loader_tries_utf8_then_latin1 Sample.missing_file boot)
    as [_ [_ [_ [H4 H5]]]].
  split; [|split; [|split]].
  - rewrite H2; reflexivity.
  - rewrite H2; reflexivity.
  - apply H4; [reflexivity | discriminate].
  - destruct (H5 "T" FileNotFoundError) as [Hmain _];
      [reflexivity | reflexivity |].
    rewrite Hmain. reflexivity.
Defined.

End OrchestratorRun.

(** ** The order of the groups *)

Section IterationOrder.


Lemma row_In_RangeIndex (rows : list Row) (r : Row) :
  In r rows -> exists i, In (i, r) (RangeIndex rows).
Proof.
  unfold RangeIndex. generalize 0.
  induction rows as [|r' rows IH]; intros start Hin; [contradiction|].
  simpl. destruct Hin as [->|Hin].
  - exists start. now left.
  - destruct (IH (S start) Hin) as [i Hi]. exists i. now right.
Qed.

Lemma list_not_longer (A : Type) (l : list A) (x : A) : l <> l ++ [x].
Proof.
  intros H. apply (f_equal (@List.length A)) in H.
  rewrite length_app in H. simpl in H. lia.
Qed.





End IterationOrder.

(** * Further properties *)

(** ** Strings *)

Section MoreStrings.

Lemma str_app_nil_r (s : string) : (s ++ "")%string = s.
Proof. induction s as [|c s IH]; simpl; [reflexivity | now rewrite IH]. Qed.

Lemma str_app_assoc (a b c : string) :
  ((a ++ b) ++ c)%string = (a ++ b ++ c)%string.
Proof. induction a as [|x a IH]; simpl; [reflexivity | now rewrite IH]. Qed.

Lemma str_length_app (a b : string) :
  String.length (a ++ b) = String.length a + String.length b.
Proof. induction a as [|x a IH]; simpl; [reflexivity | now rewrite IH]. Qed.

Lemma str_app_inv_tail (a b t : string) :
  (a ++ t)%string = (b ++ t)%string -> a = b.
Proof.
  revert b. induction a as [|x a IH]; intros [|y b] H; simpl in H.
  - reflexivity.
  - apply (f_equal String.length) in H. simpl in H.
    rewrite str_length_app in H. lia.
  - apply (f_equal String.length) in H. simpl in H.
    rewrite str_length_app in H. lia.
  - inversion H. f_equal. now apply IH.
Qed.

Lemma lstrip_split (s : string) :
  exists a, s = (a ++ Py.lstrip s)%string /\ Py.blank a = true.
Proof.
  induction s as [|c s [a [Ha Hb]]]; simpl.
  - exists "". auto.
  - destruct (Py.isspace c) eqn:E.
    + exists (String c a). simpl. rewrite E, Hb, <- Ha. auto.
    + exists "". auto.
Qed.

Lemma rstrip_split (s : string) :
  exists b, s = (Py.rstrip s ++ b)%string /\ Py.blank b = true.
Proof.
  induction s as [|c s [b [Hs Hb]]]; simpl.
  - exists "". auto.
  - destruct (Py.rstrip s) as [|c' t] eqn:E; simpl in Hs.
    + subst b. destruct (Py.isspace c) eqn:Ec.
      * exists (String c s). simpl. rewrite Ec, Hb. auto.
      * exists s. auto.
    + exists b. simpl. rewrite <- Hs. auto.
Qed.

Lemma lstrip_no_space (s : string) : starts_with_space (Py.lstrip s) = false.
Proof.
  induction s as [|c s IH]; simpl; [reflexivity|].
  destruct (Py.isspace c) eqn:E; [assumption | simpl; assumption].
Qed.

Lemma rstrip_keeps_start (s : string) :
  starts_with_space s = false -> starts_with_space (Py.rstrip s) = false.
Proof.
  destruct s as [|c s]; simpl; [reflexivity|]. intros Hc.
  destruct (Py.rstrip s); [rewrite Hc|]; simpl; assumption.
Qed.

Lemma rstrip_no_space (s : string) : ends_with_space (Py.rstrip s) = false.
Proof.
  induction s as [|c s IH]; simpl; [reflexivity|].
  destruct (Py.rstrip s) as [|c' t] eqn:E.
  - destruct (Py.isspace c) eqn:Ec; simpl; [reflexivity | assumption].
  - exact IH.
Qed.

(** [strip] takes white space off both ends and nothing else. *)
Lemma strip_split (s : string) :
  exists a b,
    s = (a ++ Py.strip s ++ b)%string
    /\ Py.blank a = true /\ Py.blank b = true
    /\ starts_with_space (Py.strip s) = false
    /\ ends_with_space (Py.strip s) = false.
Proof.
  destruct (lstrip_split s) as [a [Ha Hba]].
  destruct (rstrip_split (Py.lstrip s)) as [b [Hb Hbb]].
  exists a, b. unfold Py.strip. split; [|split; [|split; [|split]]]; auto.
  - rewrite <- Hb. exact Ha.
  - apply rstrip_keeps_start, lstrip_no_space.
  - apply rstrip_no_space.
Qed.

Lemma truthy_not_empty (s : string) : Py.truthy s = true <-> s <> "".
Proof. destruct s; simpl; split; congruence. Qed.

End MoreStrings.

(** ** The definition generator *)

Section Generator.

Lemma fold_text (content : list ContentBlock) (acc : string) :
  fold_left
    (fun acc content_block =>
       if String.eqb (type content_block) "text"
       then (acc ++ text content_block)%string else acc)
    content acc
  = (acc ++ String.concat "" (map text (filter is_text content)))%string.
Proof.
  revert acc.
  induction content as [|b content IH]; intros acc; cbn [fold_left filter].
  - simpl. now rewrite str_app_nil_r.
  - rewrite IH. unfold is_text at 2.
    destruct (String.eqb (type b) "text"); [|reflexivity].
    cbn [map]. rewrite str_app_assoc. f_equal.
    destruct (map text (filter is_text content)) as [|t ts] eqn:E.
    + simpl. now rewrite str_app_nil_r.
    + reflexivity.
Qed.

(** The text taken from a response is its text segments, in order. *)
Lemma response_text_concat (content : list ContentBlock) :
  response_text content
  = String.concat "" (map text (filter is_text content)).
Proof. unfold response_text. now rewrite fold_text. Qed.

Lemma call_claude_sonnet_full (w : World) (prompt : string) (s : Sys) :
  call_claude_sonnet w prompt s
  = (called s,
     match messages_create w (api_calls s) prompt with
     | Ok content => Ok (Py.strip (response_text content))
     | Raise e => Raise e
     end).
Proof.
  unfold call_claude_sonnet, try_except, bind, create, ret, raise, called.
  destruct (messages_create w (api_calls s) prompt); reflexivity.
Qed.

(** X1: when opening or reading the template file raises, [main] stops
    with that exception before anything else happens: the input file is
    not read, the service is not called and no file is written. *)
Theorem template_failure_stops_run_untouched :
  forall (w : World) (s : Sys) (e : exn),
    prompt_txt w = Raise e -> main w s = (s, Raise e).
Proof. intros w s e H. now rewrite main_run, H. Qed.

Lemma template_failure_stops_run_untouched_witness :
  main Sample.no_template boot = (boot, Raise FileNotFoundError).
Proof.
  apply (@template_failure_stops_run_untouched Sample.no_template boot
           FileNotFoundError).
  reflexivity.
Defined.

(** X2: when the service answers, [call_claude_sonnet] makes one call
    and returns the text segments of the response, concatenated in order
    (segments of another type are skipped), with the white space at both
    ends taken off and nothing else changed. *)
Theorem generator_returns_trimmed_text_segments :
  forall (w : World) (prompt : string) (s : Sys) (content : list ContentBlock),
    messages_create w (api_calls s) prompt = Ok content ->
    exists d a b,
      call_claude_sonnet w prompt s = (called s, Ok d)
      /\ String.concat "" (map text (filter is_text content))
         = (a ++ d ++ b)%string
      /\ Py.blank a = true /\ Py.blank b = true
      /\ starts_with_space d = false /\ ends_with_space d = false.
Proof.
  intros w prompt s content H.
  destruct (strip_split (response_text content)) as [a [b [Hs [Ha [Hb [H1 H2]]]]]].
  exists (Py.strip (response_text content)), a, b.
  split; [now rewrite call_claude_sonnet_full, H|].
  rewrite <- response_text_concat. auto.
Qed.

Lemma generator_returns_trimmed_text_segments_witness :
  exists d a b,
    call_claude_sonnet (Sample.world Sample.api_first_down) "Ta" (called boot)
    = (called (called boot), Ok d)
    /\ " A definition. " = (a ++ d ++ b)%string
    /\ Py.blank a = true /\ Py.blank b = true
    /\ starts_with_space d = false /\ ends_with_space d = false.
Proof.
  apply (@generator_returns_trimmed_text_segments
           (Sample.world Sample.api_first_down) "Ta" (called boot)
           [ {| type := "text"; text := " A definition. " |} ]).
  reflexivity.
Defined.

(** X3: [process_group] raises exactly when making the prompt raises,
    and then the service is not called: AttributeError when a paragraph
    of the group is a number, else TypeError when a case term is a number,
    else what formatting the template raises. Once the prompt is made,
    it makes exactly one call and returns, [None] when the call raised and
    the trimmed text otherwise. *)
Theorem process_group_raises_only_while_making_the_prompt :
  forall (w : World) (legislation_term legislation_id : Value)
         (group_df : DataFrame) (prompt_template : string) (s : Sys),
    process_group w legislation_term legislation_id group_df
      prompt_template s
    = match build_prompt w legislation_term legislation_id group_df
              prompt_template with
      | Raise e => (s, Raise e)
      | Ok prompt =>
          (called s,
           Ok match messages_create w (api_calls s) prompt with
              | Ok content => Some (Py.strip (response_text content))
              | Raise _ => None
              end)
      end
    /\ ((exists ir, In ir group_df /\ numeric_paragraph (snd ir) = true) ->
        build_prompt w legislation_term legislation_id group_df
          prompt_template = Raise AttributeError)
    /\ ((forall ir, In ir group_df -> numeric_paragraph (snd ir) = false) ->
        (exists ir, In ir group_df /\ numeric_case_term (snd ir) = true) ->
        build_prompt w legislation_term legislation_id group_df
          prompt_template = Raise TypeError)
    /\ ((forall ir, In ir group_df -> numeric_paragraph (snd ir) = false) ->
        (forall ir, In ir group_df -> numeric_case_term (snd ir) = false) ->
        exists fields,
          build_prompt w legislation_term legislation_id group_df
            prompt_template = format w prompt_template fields).
Proof.
  intros w t i group_df tpl s.
  destruct (group_section_text_total group_df) as [v Hv].
  pose proof (format_case_law_paragraphs_spec group_df) as Hcl.
  pose proof (get_case_terms_spec group_df) as Hct.
  split; [apply process_group_run|]. split; [|split].
  - intros [ir [Hin Hn]].
    assert (He : existsb (fun ir => numeric_paragraph (snd ir)) group_df = true).
    { apply existsb_exists. now exists ir. }
    rewrite He in Hcl.
    now rewrite (build_prompt_run w t i group_df tpl Hv), Hcl.
  - intros Hno [ir [Hin Hn]].
    rewrite (no_number_existsb numeric_paragraph group_df Hno) in Hcl.
    assert (He : existsb (fun ir => numeric_case_term (snd ir)) group_df = true).
    { apply existsb_exists. now exists ir. }
    rewrite He in Hct.
    now rewrite (build_prompt_run w t i group_df tpl Hv), Hcl, Hct.
  - intros Hno1 Hno2.
    rewrite (no_number_existsb numeric_paragraph group_df Hno1) in Hcl.
    rewrite (no_number_existsb numeric_case_term group_df Hno2) in Hct.
    destruct Hct as [terms [_ Hct]].
    eexists. rewrite (build_prompt_run w t i group_df tpl Hv), Hcl, Hct.
    reflexivity.
Qed.

(** A group with a number for paragraph, and one with a number for case
    term. *)
Lemma process_group_raises_only_while_making_the_prompt_witness :
  process_group (Sample.world Sample.api_silent) (Str "a") (Str "1")
    [(0, Sample.numeric_para)] "T" boot
  = (boot, Raise AttributeError)
  /\ process_group (Sample.world Sample.api_silent) (Str "a") (Str "1")
       [(0, Sample.numeric_term)] "T" boot
     = (boot, Raise TypeError).
Proof.
  destruct (process_group_raises_only_while_making_the_prompt
              (Sample.world Sample.api_silent) (Str "a") (Str "1")
              [(0, Sample.numeric_para)] "T" boot) as [H1 [H2 _]].
  destruct (process_group_raises_only_while_making_the_prompt
              (Sample.world Sample.api_silent) (Str "a") (Str "1")
              [(0, Sample.numeric_term)] "T" boot) as [H3 [_ [H4 _]]].
  split.
  - rewrite H1, H2; [reflexivity|].
    exists (0, Sample.numeric_para). split; [now left | reflexivity].
  - rewrite H3, H4; [reflexivity | |].
    + intros ir [<-|[]]. reflexivity.
    + exists (0, Sample.numeric_term). split; [now left | reflexivity].
Defined.

End Generator.

(** ** The loop and the run, further *)

Section MoreLoop.

Variable w : World.

Lemma for_groups_cons_run (tpl : string) (k : Key) (gdf : DataFrame)
  (rest : list (Key * DataFrame)) (rs : list ResultRecord) (p : nat)
  (s : Sys) (prompt : string) :
  build_prompt w (fst k) (snd k) gdf tpl = Ok prompt ->
  for_groups w tpl ((k, gdf) :: rest) (rs, p) s
  = for_groups w tpl rest
      (rs ++ [made_record k (messages_create w (api_calls s) prompt)], S p)
      (after_turn s (S p)
         (rs ++ [made_record k (messages_create w (api_calls s) prompt)])).
Proof.
  intros Hp. cbn [for_groups]. unfold bind at 1.
  now rewrite loop_body_run with (prompt := prompt) by exact Hp.
Qed.

Lemma for_groups_cons_abort (tpl : string) (k : Key) (gdf : DataFrame)
  (rest : list (Key * DataFrame)) (rs : list ResultRecord) (p : nat)
  (s : Sys) (e : exn) :
  build_prompt w (fst k) (snd k) gdf tpl = Raise e ->
  for_groups w tpl ((k, gdf) :: rest) (rs, p) s = (s, Raise e).
Proof.
  intros Hp. cbn [for_groups]. unfold bind at 1.
  now rewrite loop_body_abort with (e := e) by exact Hp.
Qed.

(** What holds of every record the loop makes holds of its results. *)
Lemma for_groups_Forall (P : ResultRecord -> Prop) (tpl : string)
  (groups : list (Key * DataFrame)) :
  (forall k outcome, P (made_record k outcome)) ->
  forall rs p s locals,
    Forall P rs ->
    snd (for_groups w tpl groups (rs, p) s) = Ok locals ->
    Forall P (fst locals).
Proof.
  intros Hmade.
  induction groups as [|[k gdf] rest IH]; intros rs p s locals Hrs Hok.
  - simpl in Hok. inversion Hok. assumption.
  - destruct (build_prompt w (fst k) (snd k) gdf tpl) as [prompt|e] eqn:Hp.
    + rewrite for_groups_cons_run with (prompt := prompt) in Hok by exact Hp.
      apply IH in Hok; [assumption|].
      apply Forall_app. split; [assumption|]. constructor; [apply Hmade|constructor].
    + rewrite for_groups_cons_abort with (e := e) in Hok by exact Hp.
      discriminate Hok.
Qed.

(** One call to the service and one pause per group the loop gets
    through. *)
Lemma for_groups_calls (tpl : string) (groups : list (Key * DataFrame)) :
  forall rs p s, exists n,
    n <= List.length groups
    /\ api_calls (fst (for_groups w tpl groups (rs, p) s)) = api_calls s + n
    /\ naps (fst (for_groups w tpl groups (rs, p) s)) = naps s + n
    /\ (forall locals,
          snd (for_groups w tpl groups (rs, p) s) = Ok locals ->
          n = List.length groups).
Proof.
  induction groups as [|[k gdf] rest IH]; intros rs p s.
  - exists 0. simpl. repeat split; auto with arith.
  - destruct (build_prompt w (fst k) (snd k) gdf tpl) as [prompt|e] eqn:Hp.
    + rewrite for_groups_cons_run with (prompt := prompt) by exact Hp.
      set (rs' := rs ++ [made_record k (messages_create w (api_calls s) prompt)]).
      destruct (IH rs' (S p) (after_turn s (S p) rs'))
        as [n [Hn [Hcalls [Hnaps Hok]]]].
      exists (S n). rewrite Hcalls, Hnaps. simpl.
      repeat split; try lia. intros locals Hl. now rewrite (Hok locals Hl).
    + rewrite for_groups_cons_abort with (e := e) by exact Hp.
      exists 0. simpl. repeat split; auto with arith. discriminate.
Qed.

End MoreLoop.

Section MoreRun.

Lemma stored_definition_trimmed (outcome : Res (list ContentBlock)) :
  trimmed (stored_definition outcome).
Proof.
  assert (Hp : trimmed ERROR_PLACEHOLDER).
  { repeat split. discriminate. }
  unfold stored_definition, definition_or_placeholder.
  destruct outcome as [content|e]; [|exact Hp].
  destruct (Py.truthy (Py.strip (response_text content))) eqn:E; [|exact Hp].
  destruct (strip_split (response_text content)) as [a [b [_ [_ [_ [H1 H2]]]]]].
  split; [now apply truthy_not_empty | auto].
Qed.

Lemma load_input_naps (w : World) (s : Sys) :
  naps (fst (load_input w s)) = naps s.
Proof.
  rewrite load_input_run.
  destruct (read_csv w utf_8) as [rows|[]]; reflexivity.
Qed.

(** X4: the definition field of a Result Record is the text of the
    response with the white space at both ends taken off when that text
    is not blank, and the placeholder when the text is blank or the call
    raised; so it is never empty and never has white space at either end.
    This holds of every record the loop adds, hence of every record of
    the output file of [main]. *)
Theorem stored_definitions_are_trimmed_and_not_empty :
  (forall (w : World) (tpl : string) (k : Key) (gdf : DataFrame)
          (rs : list ResultRecord) (p : nat) (s : Sys) (prompt : string),
      build_prompt w (fst k) (snd k) gdf tpl = Ok prompt ->
      exists d,
        loop_body w tpl (k, gdf) (rs, p) s
        = (after_turn s (p + 1)
             (rs ++ [ {| Result.legislation_id := snd k;
                         Result.legislation_term := fst k;
                         Result.legislation_term_definition := d |} ]),
           Ok (rs ++ [ {| Result.legislation_id := snd k;
                          Result.legislation_term := fst k;
                          Result.legislation_term_definition := d |} ],
               p + 1))
        /\ trimmed d
        /\ match messages_create w (api_calls s) prompt with
           | Raise _ => d = "Error: Could not generate definition"
           | Ok content =>
               if Py.blank (String.concat "" (map text (filter is_text content)))
               then d = "Error: Could not generate definition"
               else exists a b,
                      String.concat "" (map text (filter is_text content))
                      = (a ++ d ++ b)%string
                      /\ Py.blank a = true /\ Py.blank b = true
           end)
  /\ (forall (w : World) (tpl : string) (groups : list (Key * DataFrame))
             (rs : list ResultRecord) (p : nat) (s : Sys) locals,
        Forall (fun r => trimmed (Result.legislation_term_definition r)) rs ->
        snd (for_groups w tpl groups (rs, p) s) = Ok locals ->
        Forall (fun r => trimmed (Result.legislation_term_definition r))
          (fst locals))
  /\ (forall (w : World) (s : Sys) (results : list ResultRecord),
        csv_files (fst (main w s)) = csv_files s ++ [(output_file, results)] ->
        Forall (fun r => trimmed (Result.legislation_term_definition r))
          results).
Proof.
  assert (Hloop : forall (w : World) (tpl : string)
            (groups : list (Key * DataFrame)) (rs : list ResultRecord)
            (p : nat) (s : Sys) locals,
      Forall (fun r => trimmed (Result.legislation_term_definition r)) rs ->
      snd (for_groups w tpl groups (rs, p) s) = Ok locals ->
      Forall (fun r => trimmed (Result.legislation_term_definition r))
        (fst locals)).
  { intros w tpl groups rs p s locals Hrs Hok.
    apply (@for_groups_Forall w
             (fun r => trimmed (Result.legislation_term_definition r))
             tpl groups
             (fun k outcome => stored_definition_trimmed outcome)
             rs p s locals Hrs Hok). }
  split; [|split; [exact Hloop|]].
  - intros w tpl k gdf rs p s prompt Hp.
    exists (stored_definition (messages_create w (api_calls s) prompt)).
    split; [|split].
    + rewrite loop_body_run with (prompt := prompt) by exact Hp.
      rewrite Nat.add_1_r. reflexivity.
    + apply stored_definition_trimmed.
    + unfold stored_definition, definition_or_placeholder.
      destruct (messages_create w (api_calls s) prompt) as [content|e];
        [|reflexivity].
      rewrite strip_truthy, <- response_text_concat.
      destruct (Py.blank (response_text content)); cbn [negb]; [reflexivity|].
      destruct (strip_split (response_text content))
        as [a [b [Hs [Ha [Hb _]]]]].
      exists a, b. auto.
  - intros w s results Hfiles.
    destruct (main_files w s)
      as [[Hsame _]|[tpl [rows [locals [_ [_ [Hrun Hout]]]]]]].
    + rewrite Hsame in Hfiles. now apply list_not_longer in Hfiles.
    + rewrite Hout in Hfiles. apply app_inv_head in Hfiles.
      inversion Hfiles. subst results.
      eapply Hloop; [|exact Hrun]. constructor.
Qed.

(** The second call of the sample service answers " A definition. ": the
    record holds "A definition.". *)
Lemma stored_definitions_are_trimmed_and_not_empty_witness :
  exists d,
    loop_body (Sample.world Sample.api_first_down) "T"
      ((Str "a", Str "2"), [(1, Sample.r2)]) ([], 0) (called boot)
    = (after_turn (called boot) (0 + 1)
         ([] ++ [ {| Result.legislation_id := Str "2";
                     Result.legislation_term := Str "a";
                     Result.legislation_term_definition := d |} ]),
       Ok ([] ++ [ {| Result.legislation_id := Str "2";
                      Result.legislation_term := Str "a";
                      Result.legislation_term_definition := d |} ],
           0 + 1))
    /\ trimmed d
    /\ exists a b,
         " A definition. " = (a ++ d ++ b)%string
         /\ Py.blank a = true /\ Py.blank b = true.
Proof.
  destruct stored_definitions_are_trimmed_and_not_empty as [H _].
  apply (H (Sample.world Sample.api_first_down) "T" (Str "a", Str "2")
           [(1, Sample.r2)] [] 0 (called boot) "Ta").
  reflexivity.
Defined.

(** X5: the loop makes exactly one call to the service and takes exactly
    one pause for each group it gets through, so a run of [main] makes at
    most one call and takes at most one pause. *)
Theorem one_call_and_one_pause_per_group :
  (forall (w : World) (tpl : string) (groups : list (Key * DataFrame))
          (rs : list ResultRecord) (p : nat) (s : Sys),
      exists n,
        n <= List.length groups
        /\ api_calls (fst (for_groups w tpl groups (rs, p) s)) = api_calls s + n
        /\ naps (fst (for_groups w tpl groups (rs, p) s)) = naps s + n
        /\ (forall locals,
              snd (for_groups w tpl groups (rs, p) s) = Ok locals ->
              n = List.length groups))
  /\ (forall (w : World) (s : Sys),
        exists n,
          n <= 1
          /\ api_calls (fst (main w s)) = api_calls s + n
          /\ naps (fst (main w s)) = naps s + n).
Proof.
  split; [intros; apply for_groups_calls|].
  intros w s. rewrite main_run.
  destruct (prompt_txt w) as [tpl|e]; [|exists 0; simpl; auto with arith].
  destruct (load_input_files w s) as [_ Hcalls].
  pose proof (load_input_naps w s) as Hnaps.
  destruct (load_input w s) as [s1 [df|e]]; cbn [fst snd] in *;
    [|exists 0; rewrite Hcalls, Hnaps; auto with arith].
  destruct (for_groups_calls w tpl (firstn 1 (groupby df)) [] 0 s1)
    as [n [Hn [Hc [Hp _]]]].
  assert (Hone : n <= 1).
  { rewrite length_firstn in Hn. lia. }
  exists n.
  destruct (for_groups w tpl (firstn 1 (groupby df)) ([], 0) s1)
    as [s2 [locals|e]]; cbn [fst snd wrote api_calls naps] in *;
    rewrite Hc, Hp, Hcalls, Hnaps; auto.
Qed.

(** X6: when the loop ends, the records added stand in the order of the
    groups and carry their keys, one record per group, and the counter
    [processed] has grown by the number of groups; started as [main]
    starts it, the loop keeps [processed] equal to the number of records. *)
Theorem loop_adds_records_in_group_order :
  forall (w : World) (tpl : string) (groups : list (Key * DataFrame))
         (rs : list ResultRecord) (p : nat) (s : Sys) locals,
    snd (for_groups w tpl groups (rs, p) s) = Ok locals ->
    map record_key (fst locals) = map record_key rs ++ map fst groups
    /\ snd locals = p + List.length groups
    /\ (List.length rs = p -> List.length (fst locals) = snd locals).
Proof.
  intros w tpl groups rs p s locals Hok.
  destruct (for_groups_run w tpl groups rs p s)
    as [recs [_ [Hkeys [_ [_ [_ Hout]]]]]].
  rewrite Hok in Hout. destruct locals as [rs' p'].
  destruct Hout as [-> [-> Hl]]. cbn [fst snd].
  rewrite map_app, Hkeys, Hl, <- (length_map fst), firstn_all.
  repeat split. intros Hrs. rewrite length_app, length_map. lia.
Qed.

Lemma loop_adds_records_in_group_order_witness :
  map record_key
    (fst ([ {| Result.legislation_id := Str "2";
               Result.legislation_term := Str "a";
               Result.legislation_term_definition := ERROR_PLACEHOLDER |} ], 1))
  = map record_key [] ++ map fst [((Str "a", Str "2"), [(1, Sample.r2)])].
Proof.
  destruct (@loop_adds_records_in_group_order
              (Sample.world Sample.api_silent) "T"
              [((Str "a", Str "2"), [(1, Sample.r2)])] [] 0 boot
              ([ {| Result.legislation_id := Str "2";
                    Result.legislation_term := Str "a";
                    Result.legislation_term_definition := ERROR_PLACEHOLDER |} ], 1))
    as [H _].
  - reflexivity.
  - exact H.
Defined.

End MoreRun.

(** ** The run on an empty input *)

Section RunOutcome.

Lemma present_keys_nil (df : DataFrame) :
  (forall ir, In ir df -> row_key (snd ir) = None) -> present_keys df = [].
Proof.
  induction df as [|[i r] df IH]; intros H; simpl; [reflexivity|].
  pose proof (H (i, r) (or_introl eq_refl)) as Hr. cbn [snd] in Hr.
  rewrite Hr. apply IH.
  intros ir Hin. apply H. now right.
Qed.

Lemma RangeIndex_In_row (rows : list Row) (ir : nat * Row) :
  In ir (RangeIndex rows) -> In (snd ir) rows.
Proof.
  destruct ir as [i r]. unfold RangeIndex. apply in_combine_r.
Qed.

Lemma groupby_nil (rows : list Row) :
  (forall r, In r rows -> row_key r = None) -> groupby (RangeIndex rows) = [].
Proof.
  intros H. unfold groupby, group_keys. rewrite present_keys_nil; [reflexivity|].
  intros ir Hin. apply H. now apply RangeIndex_In_row.
Qed.

(** X7: when the input has no row with both a term and an identifier
    (a file with its header line only, for instance), [main] makes no call
    to the service, writes the output file with no record in it, and then
    stops with KeyError: the summary reads a column that a table made of
    no record does not have. *)
Theorem empty_input_writes_empty_output_then_raises :
  forall (w : World) (s : Sys) (tpl : string) (rows : list Row),
    prompt_txt w = Ok tpl ->
    snd (load_input w s) = Ok (RangeIndex rows) ->
    (forall r, In r rows -> row_key r = None) ->
    main w s
    = (wrote (fst (load_input w s)) output_file [],
       Raise (KeyError "legislation_term_definition"))
    /\ api_calls (fst (main w s)) = api_calls s.
Proof.
  intros w s tpl rows Ht Hl Hnone.
  assert (Hmain : main w s
                  = (wrote (fst (load_input w s)) output_file [],
                     Raise (KeyError "legislation_term_definition"))).
  { rewrite main_run, Ht. destruct (load_input w s) as [s1 r1].
    cbn [fst snd] in *. subst r1. now rewrite (groupby_nil rows Hnone). }
  split; [exact Hmain|]. rewrite Hmain. cbn [fst wrote api_calls].
  apply load_input_files.
Qed.

Lemma empty_input_writes_empty_output_then_raises_witness :
  main Sample.empty_file boot
  = (wrote (fst (load_input Sample.empty_file boot)) output_file [],
     Raise (KeyError "legislation_term_definition"))
  /\ api_calls (fst (main Sample.empty_file boot)) = api_calls boot.
Proof.
  apply (@empty_input_writes_empty_output_then_raises
           Sample.empty_file boot "T" []).
  - reflexivity.
  - reflexivity.
  - intros r [].
Defined.

End RunOutcome.

(** ** The names of the files written *)

Section FileNames.

Lemma str_of_nat_inj (n m : nat) : Py.str_of_nat n = Py.str_of_nat m -> n = m.
Proof.
  unfold Py.str_of_nat. intros H.
  apply (f_equal NilEmpty.uint_of_string) in H.
  rewrite !NilEmpty.usu in H. inversion H.
  now apply Unsigned.to_uint_inj.
Qed.

Lemma intermediate_file_inj (n m : nat) :
  intermediate_file n = intermediate_file m -> n = m.
Proof.
  unfold intermediate_file. intros H. cbn [append] in H.
  inversion H as [H'].
  apply str_app_inv_tail in H'. now apply str_of_nat_inj.
Qed.

Lemma intermediate_file_not_output (n : nat) : intermediate_file n <> output_file.
Proof. unfold intermediate_file, output_file. cbn [append]. discriminate. Qed.

(** X9: the checkpoint files of a run have pairwise different names, and
    none has the name of the output file: no file written by the loop
    replaces another one, nor is replaced by the final output. *)
Theorem checkpoint_files_never_overwrite :
  forall (w : World) (tpl : string) (groups : list (Key * DataFrame)) (s : Sys),
    exists files,
      csv_files (fst (for_groups w tpl groups ([], 0) s)) = csv_files s ++ files
      /\ NoDup (map fst files)
      /\ ~ In output_file (map fst files).
Proof.
  intros w tpl groups s.
  destruct (for_groups_run w tpl groups [] 0 s)
    as [recs [_ [_ [_ [_ [Hfiles _]]]]]].
  exists (checkpoints [] 0 recs). split; [exact Hfiles|].
  rewrite checkpoints_from_start, map_map. cbn [fst]. split.
  - apply Injective_map_NoDup.
    + intros n m. apply intermediate_file_inj.
    + apply NoDup_filter, seq_NoDup.
  - intros Hin. apply in_map_iff in Hin. destruct Hin as [n [Hn _]].
    now apply intermediate_file_not_output in Hn.
Qed.

End FileNames.
(** ** The prompt builder, further *)

Section MorePrompt.

(** X10: a row added at the end of a group leaves the case terms of the
    prompt as they were when its case term is missing or is already the
    case term of a row of the group. *)
Theorem case_terms_unchanged_by_missing_or_repeated_term :
  forall (group_df : DataFrame) (ir : nat * Row),
    case_term (snd ir) = NaN
    \/ In (case_term (snd ir)) (column case_term group_df) ->
    get_case_terms (group_df ++ [ir]) = get_case_terms group_df.
Proof.
  intros group_df ir H. unfold get_case_terms, column, unique.
  rewrite map_app, dropna_app. cbn [map dropna].
  destruct (case_term (snd ir)) as [|v] eqn:E.
  - now rewrite app_nil_r.
  - destruct H as [H|H]; [discriminate|].
    rewrite unique_from_app_seen; [reflexivity|].
    right. now apply dropna_In.
Qed.

Lemma case_terms_unchanged_by_missing_or_repeated_term_witness :
  get_case_terms ([(0, Sample.r1)] ++ [(1, Sample.r2)])
  = get_case_terms [(0, Sample.r1)].
Proof.
  apply case_terms_unchanged_by_missing_or_repeated_term.
  right. left. reflexivity.
Defined.

Lemma with_text_false (row : Row) :
  with_text row = false <->
  paragraph_text row = None /\ numeric_paragraph row = false.
Proof.
  unfold with_text. destruct (paragraph_text row).
  - split; [discriminate | intros [H _]; discriminate].
  - tauto.
Qed.

Lemma numeric_paragraph_no_text (row : Row) :
  numeric_paragraph row = true -> paragraph_text row = None.
Proof.
  unfold numeric_paragraph, paragraph_text.
  destruct (paragraphs row) as [[|[p|z]]|]; auto; discriminate.
Qed.

Lemma spec_case_law_blocks_filter (group_df : DataFrame) :
  spec_case_law_blocks (filter (fun ir => with_text (snd ir)) group_df)
  = spec_case_law_blocks group_df.
Proof.
  induction group_df as [|[i r] rest IH]; simpl; [reflexivity|].
  unfold with_text at 1. destruct (paragraph_text r) as [p|] eqn:E; simpl.
  - rewrite E. simpl. now rewrite IH.
  - destruct (numeric_paragraph r) eqn:En; [|exact IH].
    simpl. rewrite E. exact IH.
Qed.

Lemma numeric_paragraph_filter (group_df : DataFrame) :
  existsb (fun ir => numeric_paragraph (snd ir))
    (filter (fun ir => with_text (snd ir)) group_df)
  = existsb (fun ir => numeric_paragraph (snd ir)) group_df.
Proof.
  induction group_df as [|[i r] rest IH]; simpl; [reflexivity|].
  destruct (with_text r) eqn:E; simpl; [now rewrite IH|].
  apply with_text_false in E. destruct E as [_ ->]. exact IH.
Qed.

Lemma spec_case_law_blocks_nil (group_df : DataFrame) :
  spec_case_law_blocks group_df = [] <->
  forall ir, In ir group_df -> paragraph_text (snd ir) = None.
Proof.
  induction group_df as [|[i r] rest IH]; simpl.
  - split; [intros _ ir [] | reflexivity].
  - destruct (paragraph_text r) as [p|] eqn:E; simpl.
    + split; [discriminate|]. intros H.
      specialize (H (i, r) (or_introl eq_refl)). simpl in H.
      rewrite E in H. discriminate.
    + rewrite IH. split.
      * intros H ir [<-|Hin]; [exact E | now apply H].
      * intros H ir Hin. apply H. now right.
Qed.

Lemma spec_section_empty (blocks : list string) :
  Forall (fun b => b <> "") blocks ->
  (spec_section blocks = "" <-> blocks = []).
Proof.
  intros Hall. destruct blocks as [|b bs]; [simpl; tauto|].
  split; [|discriminate]. intros H. exfalso.
  inversion Hall as [|? ? Hb _]. subst.
  destruct b as [|c b]; [now apply Hb|].
  destruct bs; simpl in H; discriminate.
Qed.

Lemma spec_case_law_blocks_not_empty (group_df : DataFrame) :
  Forall (fun b => b <> "") (spec_case_law_blocks group_df).
Proof.
  apply Forall_forall. intros b Hb. unfold spec_case_law_blocks in Hb.
  apply in_flat_map in Hb. destruct Hb as [ir [_ Hb]].
  destruct (paragraph_text (snd ir)); [|contradiction].
  destruct Hb as [<-|[]]. unfold spec_block. cbn [append]. discriminate.
Qed.

(** X11: the case-law section of a prompt is empty exactly when no row of
    the group has a paragraph text, and it is the same with or without
    the rows that have none. *)
Theorem case_law_section_depends_on_rows_with_text_only :
  forall group_df : DataFrame,
    (format_case_law_paragraphs group_df = Ok "" <->
     forall ir, In ir group_df -> with_text (snd ir) = false)
    /\ format_case_law_paragraphs
         (filter (fun ir => with_text (snd ir)) group_df)
       = format_case_law_paragraphs group_df.
Proof.
  intros group_df. rewrite !format_case_law_paragraphs_spec.
  rewrite numeric_paragraph_filter, spec_case_law_blocks_filter.
  split; [|reflexivity].
  destruct (existsb (fun ir => numeric_paragraph (snd ir)) group_df) eqn:En.
  - split; [discriminate|]. intros H. exfalso.
    apply existsb_exists in En. destruct En as [ir [Hin Hn]].
    apply H, with_text_false in Hin. destruct Hin as [_ Hin].
    rewrite Hin in Hn. discriminate.
  - split.
    + intros H ir Hin. apply with_text_false. split.
      * assert (Hs : spec_section (spec_case_law_blocks group_df) = "")
          by congruence.
        apply spec_section_empty in Hs;
          [|apply spec_case_law_blocks_not_empty].
        now apply (proj1 (spec_case_law_blocks_nil group_df) Hs).
      * destruct (numeric_paragraph (snd ir)) eqn:E; [|reflexivity].
        rewrite <- En. symmetry. apply existsb_exists. now exists ir.
    + intros H. f_equal. apply spec_section_empty;
        [apply spec_case_law_blocks_not_empty|].
      apply spec_case_law_blocks_nil. intros ir Hin.
      now apply H, with_text_false in Hin.
Qed.

End MorePrompt.

(** ** Grouping, further *)

Section MoreGroupBy.

Lemma sorted_keys_ext (l1 l2 : list Key) :
  StronglySorted key_lt l1 -> StronglySorted key_lt l2 ->
  (forall k, In k l1 <-> In k l2) -> l1 = l2.
Proof.
  intros H1. revert l2.
  induction H1 as [|a l1 Hs1 IH Ha]; intros l2 H2 Hext.
  - destruct l2 as [|b l2]; [reflexivity|].
    exfalso. apply (proj2 (Hext b)). now left.
  - destruct H2 as [|b l2 Hs2 Hb].
    + exfalso. apply (proj1 (Hext a)). now left.
    + rewrite Forall_forall in Ha, Hb.
      assert (Hab : a = b).
      { destruct (proj1 (Hext a) (or_introl eq_refl)) as [Hba|Hin2]; [auto|].
        destruct (proj2 (Hext b) (or_introl eq_refl)) as [Heq|Hin1]; [auto|].
        exfalso. apply (@key_lt_irrefl a).
        apply key_lt_trans with b; auto. }
      subst b. f_equal. apply IH; [assumption|].
      intros k. split; intros Hk.
      * destruct (proj1 (Hext k) (or_intror Hk)) as [<-|Hin]; [|assumption].
        exfalso. apply (@key_lt_irrefl a). now apply Ha.
      * destruct (proj2 (Hext k) (or_intror Hk)) as [<-|Hin]; [|assumption].
        exfalso. apply (@key_lt_irrefl a). now apply Hb.
Qed.

Lemma filter_Permutation (A : Type) (f : A -> bool) (l l' : list A) :
  Permutation l l' -> Permutation (filter f l) (filter f l').
Proof.
  induction 1 as [|x l l' H IH|x y l|l l' l'' H1 IH1 H2 IH2]; simpl.
  - constructor.
  - destruct (f x); [now constructor | assumption].
  - destruct (f x), (f y); try reflexivity. constructor.
  - now transitivity (filter f l').
Qed.

Lemma RangeIndex_rows (rows : list Row) : map snd (RangeIndex rows) = rows.
Proof.
  unfold RangeIndex. generalize 0.
  induction rows as [|r rows IH]; intros n; simpl; [reflexivity|].
  now rewrite IH.
Qed.

Lemma filter_map_snd (p : Row -> bool) (df : DataFrame) :
  map snd (filter (fun ir => p (snd ir)) df) = filter p (map snd df).
Proof.
  induction df as [|[i r] df IH]; simpl; [reflexivity|].
  destruct (p r); simpl; now rewrite IH.
Qed.

Lemma group_keys_of_rows (rows : list Row) (k : Key) :
  In k (group_keys (RangeIndex rows)) <->
  exists r, In r rows /\ row_key r = Some k.
Proof.
  rewrite group_keys_In. split.
  - intros [ir [Hin Hk]]. exists (snd ir). split; [|assumption].
    now apply RangeIndex_In_row.
  - intros [r [Hin Hk]]. destruct (row_In_RangeIndex rows r Hin) as [i Hi].
    exists (i, r). auto.
Qed.

(** X12: the order of the rows in the input changes neither the groups
    nor the order in which they are iterated, only the order of the rows
    inside a group: two inputs with the same rows give the same list of
    group keys, and groups with the same key hold the same rows. *)
Theorem groups_do_not_depend_on_row_order :
  forall rows rows' : list Row,
    Permutation rows rows' ->
    map fst (groupby (RangeIndex rows)) = map fst (groupby (RangeIndex rows'))
    /\ (forall k g g',
          In (k, g) (groupby (RangeIndex rows)) ->
          In (k, g') (groupby (RangeIndex rows')) ->
          Permutation (map snd g) (map snd g')).
Proof.
  intros rows rows' Hperm. split.
  - rewrite !groupby_keys.
    apply sorted_keys_ext; try apply group_keys_Sorted.
    intros k. rewrite !group_keys_of_rows.
    split; intros [r [Hin Hk]]; exists r; split; auto.
    + now apply (Permutation_in _ Hperm).
    + now apply (Permutation_in _ (Permutation_sym Hperm)).
  - intros k g g' Hg Hg'.
    apply groupby_In in Hg, Hg'. cbn [fst snd] in *.
    destruct Hg as [_ ->], Hg' as [_ ->].
    rewrite !(filter_map_snd (has_key k)), !RangeIndex_rows.
    now apply filter_Permutation.
Qed.

Lemma groups_do_not_depend_on_row_order_witness :
  map fst (groupby (RangeIndex [Sample.r1; Sample.r2]))
  = map fst (groupby (RangeIndex [Sample.r2; Sample.r1])).
Proof.
  apply (@groups_do_not_depend_on_row_order
           [Sample.r1; Sample.r2] [Sample.r2; Sample.r1]).
  apply perm_swap.
Defined.

Lemma concat_length_lower (A : Type) (ls : list (list A)) :
  Forall (fun l => l <> []) ls -> List.length ls <= List.length (List.concat ls).
Proof.
  induction 1 as [|l ls Hl _ IH]; simpl; [lia|].
  rewrite length_app. destruct l; [contradiction | simpl; lia].
Qed.

Lemma group_not_empty (df : DataFrame) (g : Key * DataFrame) :
  In g (groupby df) -> snd g <> [].
Proof.
  intros Hg. apply groupby_In in Hg. destruct Hg as [Hk ->].
  apply group_keys_In in Hk. destruct Hk as [ir [Hin Hk]].
  intros Hnil.
  assert (Hmem : In ir (filter (fun ir => has_key (fst g) (snd ir)) df)).
  { apply filter_In. split; [assumption | now apply has_key_iff]. }
  rewrite Hnil in Hmem. contradiction.
Qed.

(** X13: no group is empty, and there are at most as many groups as rows
    with both a term and an identifier, hence at most as many as rows. *)
Theorem groups_are_not_empty_and_not_more_than_rows :
  forall df : DataFrame,
    (forall g, In g (groupby df) -> snd g <> [])
    /\ List.length (groupby df) <= List.length (filter keyed df)
    /\ List.length (filter keyed df) <= List.length df.
Proof.
  intros df. split; [intros g; apply group_not_empty|]. split.
  - rewrite <- (Permutation_length (group_rows_Permutation df)).
    unfold group_rows. rewrite <- (length_map snd (groupby df)).
    apply concat_length_lower. apply Forall_forall.
    intros l Hl. apply in_map_iff in Hl. destruct Hl as [g [<- Hg]].
    now apply group_not_empty with df.
  - apply filter_length_le.
Qed.

End MoreGroupBy.

(** ** The summary *)

Section Summary.

Lemma prefix_app (p s : string) : String.prefix p (p ++ s) = true.
Proof.
  induction p as [|c p IH]; simpl; [now destruct s|].
  destruct (ascii_dec c c) as [_|Hne]; [assumption | contradiction].
Qed.

Lemma str_contains_prefix (p s : string) :
  String.prefix p s = true -> str_contains p s = true.
Proof. intros H. destruct s; cbn [str_contains]; now rewrite H. Qed.

Lemma str_contains_app (p a b : string) :
  str_contains p (a ++ p ++ b) = true.
Proof.
  induction a as [|c a IH].
  - change ("" ++ p ++ b)%string with (p ++ b)%string.
    apply str_contains_prefix, prefix_app.
  - cbn [append str_contains]. rewrite IH. apply orb_true_r.
Qed.

Lemma filter_length_mono (A : Type) (p q : A -> bool) (l : list A) :
  (forall x, p x = true -> q x = true) ->
  List.length (filter p l) <= List.length (filter q l).
Proof.
  intros H. induction l as [|x l IH]; simpl; [lia|].
  destruct (p x) eqn:E.
  - rewrite (H x E). simpl. lia.
  - destruct (q x); simpl; lia.
Qed.

Lemma placeholder_contains_Error (r : ResultRecord) :
  is_placeholder r = true -> contains_Error r = true.
Proof.
  unfold is_placeholder, contains_Error. intros H. apply String.eqb_eq in H.
  rewrite H. reflexivity.
Qed.

Lemma summary_cons (r : ResultRecord) (rs : list ResultRecord) :
  summary (r :: rs)
  = Ok (List.length (r :: rs) - List.length (filter contains_Error (r :: rs)),
        List.length (filter contains_Error (r :: rs))).
Proof. reflexivity. Qed.

(** The last step of [main] stops as the summary does. *)
Lemma main_last_step_is_summary (results : list ResultRecord) :
  (if (List.length results =? 0)%nat
   then Raise (KeyError "legislation_term_definition")
   else Ok tt)
  = match summary results with
    | Ok _ => Ok tt
    | Raise e => Raise e
    end.
Proof. destruct results; reflexivity. Qed.

(** X14: the summary raises KeyError exactly when there is no record;
    otherwise the two numbers it logs add up to the number of records, and
    the number logged as failed counts every record that holds the
    placeholder. *)
Theorem summary_counts_add_up :
  forall results : list ResultRecord,
    (summary results = Raise (KeyError "legislation_term_definition") <->
     results = [])
    /\ (forall successful failed,
          summary results = Ok (successful, failed) ->
          successful + failed = List.length results
          /\ List.length (filter is_placeholder results) <= failed).
Proof.
  intros results. split.
  - destruct results; simpl; split; (reflexivity || discriminate).
  - intros successful failed H. destruct results as [|r rs]; [discriminate|].
    rewrite summary_cons in H.
    assert (H1 : List.length (r :: rs)
                 - List.length (filter contains_Error (r :: rs)) = successful)
      by congruence.
    assert (H2 : List.length (filter contains_Error (r :: rs)) = failed)
      by congruence.
    rewrite <- H1, <- H2. split.
    + apply Nat.sub_add, filter_length_le.
    + apply filter_length_mono, placeholder_contains_Error.
Qed.

(** X15: a record is logged as failed as soon as its definition contains
    the word Error, be it the placeholder or a text the service returned:
    with such a record, fewer definitions are logged as successful than
    there are records. *)
Theorem definition_mentioning_Error_is_logged_as_failed :
  forall (results : list ResultRecord) (r : ResultRecord) (pre post : string),
    In r results ->
    Result.legislation_term_definition r = (pre ++ "Error" ++ post)%string ->
    exists successful failed,
      summary results = Ok (successful, failed)
      /\ 1 <= failed
      /\ successful < List.length results.
Proof.
  intros results r pre post Hin Hdef.
  destruct results as [|r0 rs]; [contradiction|].
  eexists. eexists. split; [apply summary_cons|].
  assert (Hr : In r (filter contains_Error (r0 :: rs))).
  { apply filter_In. split; [assumption|]. unfold contains_Error.
    rewrite Hdef. apply str_contains_app. }
  assert (Hpos : 1 <= List.length (filter contains_Error (r0 :: rs))).
  { destruct (filter contains_Error (r0 :: rs)); [contradiction | simpl; lia]. }
  pose proof (filter_length_le contains_Error (r0 :: rs)) as Hle.
  split; [exact Hpos|].
  remember (List.length (filter contains_Error (r0 :: rs))) as f.
  remember (List.length (r0 :: rs)) as n. lia.
Qed.

Lemma definition_mentioning_Error_is_logged_as_failed_witness :
  exists successful failed,
    summary [ {| Result.legislation_id := Str "2";
                 Result.legislation_term := Str "a";
                 Result.legislation_term_definition :=
                   "An Error of law is a mistake." |} ]
    = Ok (successful, failed)
    /\ 1 <= failed
    /\ successful < 1.
Proof.
  apply (@definition_mentioning_Error_is_logged_as_failed
           [ {| Result.legislation_id := Str "2";
                Result.legislation_term := Str "a";
                Result.legislation_term_definition :=
                  "An Error of law is a mistake." |} ]
           {| Result.legislation_id := Str "2";
              Result.legislation_term := Str "a";
              Result.legislation_term_definition :=
                "An Error of law is a mistake." |}
           "An " " of law is a mistake.").
  - left. reflexivity.
  - reflexivity.
Defined.

End Summary.
